(** * compdb.contrib: document locks, heartbeat and job life cycle

    A shallow embedding of [compdb/contrib/concurrency.py] and of the
    database-facing part of [compdb/contrib/job.py].  The MongoDB collection
    the code talks to through pymongo is an explicit store that every
    operation threads through; each pymongo call is one atomic function on
    that store. *)

From Stdlib Require Import ZArith Lia.
From stdpp Require Import gmap gmultiset strings list fin_maps.

#[local] Open Scope string_scope.
#[local] Open Scope Z_scope.
#[local] Open Scope list_scope.

(** ** The document store, as the code uses it through pymongo *)

Module Mongo.

(** BSON values that occur in a job document: integers, strings, UUIDs
    (the lock owner, [uuid4()]) and dates (the heartbeat). *)
Inductive scalar :=
| SInt (z : Z)
| SStr (s : string)
| SUuid (u : N)
| SDate (t : Z).

#[global] Instance scalar_eq_dec : EqDecision scalar.
Proof. solve_decision. Defined.

(** An array element is a scalar or an embedded document. *)
Inductive elem :=
| EScalar (s : scalar)
| ESub (m : gmap string scalar).

#[global] Instance elem_eq_dec : EqDecision elem.
Proof. solve_decision. Defined.

Inductive value :=
| VScalar (s : scalar)
| VSub (m : gmap string scalar)
| VArr (l : list elem).

#[global] Instance value_eq_dec : EqDecision value.
Proof. solve_decision. Defined.

(** A document maps field names to values; a collection maps [_id] to the
    rest of the document (the unique index on [_id]). *)
Abbreviation document := (gmap string value).
Abbreviation collection := (gmap string document).

(** Query conditions next to ['_id'] in the filters of the source. *)
Inductive cond :=
| FieldExists (f : string) (b : bool)   (* {f: {'$exists': b}} *)
| FieldIs (f : string) (s : scalar)     (* {f: s} *)
| AnyOf (c1 c2 : cond).                 (* {'$or': [c1, c2]} *)

Record query := Query { q_id : string; q_conds : list cond }.

(** Equality against a field also matches an array holding the value. *)
Fixpoint cond_holds (d : document) (c : cond) : bool :=
  match c with
  | FieldExists f b => Bool.eqb (bool_decide (is_Some (d !! f))) b
  | FieldIs f s =>
      match d !! f with
      | Some (VScalar s') => bool_decide (s' = s)
      | Some (VArr l) => bool_decide (EScalar s ∈ l)
      | _ => false
      end
  | AnyOf c1 c2 => cond_holds d c1 || cond_holds d c2
  end.

Definition matches (q : query) (d : document) : bool :=
  forallb (cond_holds d) (q_conds q).

(** Field paths: ['f'] and the dotted ['f.k']. *)
Inductive path :=
| Top (f : string)
| Dot (f k : string).

Inductive update_op :=
| Set_ (p : path) (s : scalar)          (* '$set' *)
| Unset (p : path)                      (* '$unset' *)
| Inc (f : string) (n : Z)              (* '$inc' *)
| Push (f : string) (e : elem)          (* '$push' *)
| Pull (f : string) (e : elem)          (* '$pull' *)
| SetOnInsert (f : string) (v : value). (* '$setOnInsert' *)

Abbreviation update := (list update_op).

(** One update operator on an existing document; [None] is a write error
    of the server (the operator does not fit the stored value). *)
Definition apply_op (d : document) (o : update_op) : option document :=
  match o with
  | Set_ (Top f) s => Some (<[f := VScalar s]> d)
  | Set_ (Dot f k) s =>
      match d !! f with
      | None => Some (<[f := VSub {[k := s]}]> d)
      | Some (VSub m) => Some (<[f := VSub (<[k := s]> m)]> d)
      | Some _ => None
      end
  | Unset (Top f) => Some (delete f d)
  | Unset (Dot f k) =>
      match d !! f with
      | Some (VSub m) => Some (<[f := VSub (delete k m)]> d)
      | _ => Some d
      end
  | Inc f n =>
      match d !! f with
      | None => Some (<[f := VScalar (SInt n)]> d)
      | Some (VScalar (SInt z)) => Some (<[f := VScalar (SInt (z + n))]> d)
      | Some _ => None
      end
  | Push f e =>
      match d !! f with
      | None => Some (<[f := VArr [e]]> d)
      | Some (VArr l) => Some (<[f := VArr (l ++ [e])]> d)
      | Some _ => None
      end
  | Pull f e =>
      match d !! f with
      | None => Some d
      | Some (VArr l) => Some (<[f := VArr (filter (λ x, x ≠ e) l)]> d)
      | Some _ => None
      end
  | SetOnInsert _ _ => Some d
  end.

Fixpoint apply_update (u : update) (d : document) : option document :=
  match u with
  | [] => Some d
  | o :: u' =>
      match apply_op d o with
      | Some d' => apply_update u' d'
      | None => None
      end
  end.

(** The document an upsert inserts when nothing matches: the
    ['$setOnInsert'] fields, then the other operators. *)
Definition on_insert (o : update_op) (d : document) : document :=
  match o with
  | SetOnInsert f v => <[f := v]> d
  | _ => d
  end.

Definition inserted (u : update) : option document :=
  apply_update u (foldr on_insert ∅ u).

(** What reaches a pymongo method as its [update] argument: a mapping, or
    (by Python's syntax) a tuple holding one. *)
Inductive pyarg :=
| Mapping (u : update)
| Tuple1 (u : update).

(** The effects the model records, in program order. *)
Inductive call :=
| FindAndModify (q : query) (u : update)
| FindOneAndUpdate (q : query) (u : update)
| UpdateOne (q : query) (u : pyarg)
| FindOne (q : query)
| LogInfo (msg : string)
| Chdir (dir : string).

Record store := Store { docs : gmap string document; log : list call }.

Definition logged (c : call) (s : store) : store :=
  Store (docs s) (log s ++ [c]).

Inductive exn :=
| ValueError
| OverflowError
| TypeError
| KeyError
| AssertionError
| RuntimeError
| OperationFailure
| DocumentLockError.

#[global] Instance exn_eq_dec : EqDecision exn.
Proof. solve_decision. Defined.

(** A computation returns, raises, or was cut off by the bound on the
    retries of a blocking acquisition. *)
Inductive result (A : Type) :=
| Ok (a : A)
| Raise (e : exn)
| OutOfFuel.
Arguments Ok {A} a.
Arguments Raise {A} e.
Arguments OutOfFuel {A}.

Definition M (A : Type) : Type := store → result A * store.

Definition ret {A} (a : A) : M A := λ s, (Ok a, s).
Definition raise {A} (e : exn) : M A := λ s, (Raise e, s).
Definition bind {A B} (m : M A) (k : A → M B) : M B :=
  λ s, match m s with
       | (Ok a, s') => k a s'
       | (Raise e, s') => (Raise e, s')
       | (OutOfFuel, s') => (OutOfFuel, s')
       end.
Definition emit (c : call) : M unit := λ s, (Ok tt, logged c s).

(** [try: body finally: cleanup]; an exception of the cleanup replaces
    the outcome of the body. *)
Definition finally {A} (body : M A) (cleanup : M unit) : M A :=
  λ s, match body s with
       | (OutOfFuel, s') => (OutOfFuel, s')
       | (r, s') =>
           match cleanup s' with
           | (Ok _, s'') => (r, s'')
           | (Raise e, s'') => (Raise e, s'')
           | (OutOfFuel, s'') => (OutOfFuel, s'')
           end
       end.

(** The core of every conditional write: the document with the query's id
    is rewritten only if it satisfies the conditions. Returns the
    document before the write (none when an upsert inserted it) and the
    document after it. *)
Definition modify (q : query) (u : update) (upsert : bool) (s : store)
  : result (option (option document * document)) * store :=
  match docs s !! q_id q with
  | Some d =>
      if matches q d then
        match apply_update u d with
        | Some d' => (Ok (Some (Some d, d')), Store (<[q_id q := d']> (docs s)) (log s))
        | None => (Raise OperationFailure, s)
        end
      else if upsert then (Raise OperationFailure, s)  (* DuplicateKeyError *)
      else (Ok None, s)
  | None =>
      if upsert then
        match inserted u with
        | Some d' => (Ok (Some (None, d')), Store (<[q_id q := d']> (docs s)) (log s))
        | None => (Raise OperationFailure, s)
        end
      else (Ok None, s)
  end.

(** Which of the two the caller gets back. *)
Definition pick (new : bool) (r : option (option document * document)) : option document :=
  match r with
  | Some (before, after) => if new then Some after else before
  | None => None
  end.

(** [collection.find_and_modify(query, update, new)] (pymongo 2). *)
Definition find_and_modify (q : query) (u : update) (new : bool) : M (option document) :=
  bind (emit (FindAndModify q u)) (λ _,
  bind (modify q u false) (λ r, ret (pick new r))).

(** [collection.find_one_and_update(filter, update, upsert,
    return_document)] (pymongo 3). *)
Definition find_one_and_update (q : query) (u : update) (upsert after : bool)
  : M (option document) :=
  bind (emit (FindOneAndUpdate q u)) (λ _,
  bind (modify q u upsert) (λ r, ret (pick after r))).

(** [collection.update_one(filter, update, upsert)] and pymongo 2's
    [collection.update]: both reject an [update] that is not a mapping
    with [TypeError] before anything is sent. *)
Definition update_one (q : query) (u : pyarg) (upsert : bool) : M unit :=
  bind (emit (UpdateOne q u)) (λ _,
  match u with
  | Tuple1 _ => raise TypeError
  | Mapping u' => bind (modify q u' upsert) (λ _, ret tt)
  end).

(** [collection.find_one(filter)]. *)
Definition find_one (q : query) : M (option document) :=
  bind (emit (FindOne q)) (λ _ s,
    (Ok (match docs s !! q_id q with
         | Some d => if matches q d then Some d else None
         | None => None
         end), s)).

End Mongo.

Export Mongo.

Notation "'let!' x ':=' m 'in' k" := (bind m (λ x, k))
  (at level 10, x name, m at level 100, k at level 200, only parsing).
Notation "'run!' m 'in' k" := (bind m (λ _, k))
  (at level 10, m at level 100, k at level 200, only parsing).

(** ** concurrency.py *)

Module Concurrency.

Definition LOCK_ID_FIELD : string := "_lock_id".
Definition LOCK_COUNTER_FIELD : string := "_lock_counter".

(** The attributes [DocumentBaseLock.__init__] sets. [_lock_id] is the
    [uuid4()] drawn at construction; the collection is the store. The
    thread lock [_lock] only orders calls made through one lock object;
    its state is not part of the store. *)
Record lock := Lock {
  _lock_id : N;
  _document_id : string;
  _blocking : bool;
  _timeout : Z
}.

(** The two methods the subclasses of [DocumentBaseLock] provide. *)
Class LockKind := {
  _acquire : lock → M bool;
  _release : lock → M unit
}.

(** *** DocumentLock *)

Definition DocumentLock_acquire_query (self : lock) : query :=
  Query (_document_id self) [FieldExists LOCK_ID_FIELD false].
Definition DocumentLock_acquire_update (self : lock) : update :=
  [Set_ (Top LOCK_ID_FIELD) (SUuid (_lock_id self))].

Definition DocumentLock_acquire (self : lock) : M bool :=
  let! result := find_and_modify (DocumentLock_acquire_query self)
                                 (DocumentLock_acquire_update self) false in
  let acquired := bool_decide (is_Some result) in
  ret acquired.

Definition DocumentLock_release_query (self : lock) : query :=
  Query (_document_id self) [FieldIs LOCK_ID_FIELD (SUuid (_lock_id self))].
Definition DocumentLock_release_update : update :=
  [Unset (Top LOCK_ID_FIELD)].

Definition DocumentLock_release (self : lock) : M unit :=
  let! result := find_and_modify (DocumentLock_release_query self)
                                 DocumentLock_release_update false in
  match result with
  | None => raise DocumentLockError
  | Some _ => ret tt
  end.

Definition DocumentLock : LockKind :=
  {| _acquire := DocumentLock_acquire; _release := DocumentLock_release |}.

(** *** DocumentRLock *)

Definition DocumentRLock_acquire_query (self : lock) : query :=
  Query (_document_id self)
        [AnyOf (FieldExists LOCK_ID_FIELD false)
               (FieldIs LOCK_ID_FIELD (SUuid (_lock_id self)))].
Definition DocumentRLock_acquire_update (self : lock) : update :=
  [Set_ (Top LOCK_ID_FIELD) (SUuid (_lock_id self)); Inc LOCK_COUNTER_FIELD 1].

Definition DocumentRLock_acquire (self : lock) : M bool :=
  let! result := find_and_modify (DocumentRLock_acquire_query self)
                                 (DocumentRLock_acquire_update self) true in
  match result with
  | Some _ => ret true
  | None => ret false
  end.

Definition DocumentRLock_full_query (self : lock) : query :=
  Query (_document_id self)
        [FieldIs LOCK_ID_FIELD (SUuid (_lock_id self));
         FieldIs LOCK_COUNTER_FIELD (SInt 1)].
Definition DocumentRLock_full_update : update :=
  [Unset (Top LOCK_ID_FIELD); Unset (Top "lock_level")].
Definition DocumentRLock_partial_query (self : lock) : query :=
  Query (_document_id self) [FieldIs LOCK_ID_FIELD (SUuid (_lock_id self))].
Definition DocumentRLock_partial_update : update :=
  [Inc LOCK_COUNTER_FIELD (-1)].

Definition DocumentRLock_release (self : lock) : M unit :=
  (* Trying full release *)
  let! result := find_and_modify (DocumentRLock_full_query self)
                                 DocumentRLock_full_update false in
  match result with
  | Some _ => ret tt
  | None =>
      (* Trying partial release *)
      let! result := find_and_modify (DocumentRLock_partial_query self)
                                     DocumentRLock_partial_update true in
      match result with
      | None => raise DocumentLockError
      | Some _ => ret tt
      end
  end.

Definition DocumentRLock : LockKind :=
  {| _acquire := DocumentRLock_acquire; _release := DocumentRLock_release |}.

(** *** DocumentBaseLock *)

Section BaseLock.

(** [threading.TIMEOUT_MAX] of the platform (100000 where the import
    fails). *)
Variable TIMEOUT_MAX : Z.
Context {kind : LockKind}.

(** The loop of the thread [try_to_acquire], cut after [n] attempts:
    [Some true] when an attempt succeeded, [Some false] when an attempt
    raised (the exception ends the thread and goes no further), [None]
    when all [n] attempts failed. The waits between attempts do not touch
    the store. *)
Fixpoint try_to_acquire (self : lock) (n : nat) : M (option bool) :=
  match n with
  | O => ret None
  | S n' =>
      λ s, match _acquire self s with
           | (Ok true, s') => (Ok (Some true), s')
           | (Ok false, s') => try_to_acquire self n' s'
           | (Raise _, s') => (Ok (Some false), s')
           | (OutOfFuel, s') => (OutOfFuel, s')
           end
  end.

(** [threading.Lock.acquire(blocking, timeout)] of the standard library
    on [self._lock], as [acquire_timeout] calls it: a timeout on a
    non-blocking call and a negative timeout other than [-1] raise
    [ValueError], a timeout above [TIMEOUT_MAX] raises [OverflowError].
    Otherwise the call tells whether the thread lock was obtained; no
    other thread is inside [acquire] of the same lock object here, so it
    was. *)
Definition Lock_acquire (blocking : bool) (timeout : Z) : M bool :=
  if negb blocking && negb (timeout =? -1) then raise ValueError
  else if (timeout <? 0) && negb (timeout =? -1) then raise ValueError
  else if timeout >? TIMEOUT_MAX then raise OverflowError
  else ret true.

(** [with acquire_timeout(lock, blocking, timeout) as result: body]. The
    release of the thread lock after the body touches no document. *)
Definition acquire_timeout {A} (blocking : bool) (timeout : Z) (body : bool → M A) : M A :=
  let! result := Lock_acquire blocking timeout in
  body result.

(** [acquire(blocking, timeout)], seen from the caller. [attempts] is
    how many times the retry thread gets to try before the caller's
    timed join is over; without a timeout ([-1]) the loop only ends by
    success, and running out of attempts then leaves the outcome open.
    The caller returns [True] whenever the thread is no longer alive after
    the join. When it is still alive, the caller sets [stop_event] and
    returns [False] after the final join; [late] is how many more times
    the thread tries between the caller's [is_alive()] and its own next
    look at [stop_event], and what those attempts do to the store stays.
    The thread interleaving behind the blocking branch is the subject of
    [Scheduler] below. *)
Definition acquire (self : lock) (blocking : bool) (timeout : Z)
                   (attempts late : nat) : M bool :=
  if negb blocking && negb (timeout =? -1) then raise ValueError
  else if timeout >? TIMEOUT_MAX then raise OverflowError
  else
    acquire_timeout blocking timeout (λ _,
      if blocking then
        let! r := try_to_acquire self attempts in
        match r with
        | Some _ => ret true
        | None =>
            if timeout =? -1 then (λ s, (OutOfFuel, s))
            else (run! try_to_acquire self late in ret false)
        end
      else _acquire self).

Definition release (self : lock) : M unit := _release self.

Definition force_release (self : lock) : M unit :=
  let! result := find_and_modify (Query (_document_id self) [])
                   [Unset (Top LOCK_ID_FIELD); Unset (Top LOCK_COUNTER_FIELD)] false in
  ret tt.

Definition __enter__ (self : lock) (attempts late : nat) : M unit :=
  let! blocked := acquire self (_blocking self) (_timeout self) attempts late in
  if blocked : bool then ret tt else raise DocumentLockError.

Definition __exit__ (self : lock) : M bool :=
  run! release self in ret false.

(** [with self: body]: [__exit__] runs on every way out of the body
    and never swallows its exception. *)
Definition with_lock {A} (self : lock) (attempts late : nat) (body : M A) : M A :=
  run! __enter__ self attempts late in
  finally body (run! __exit__ self in ret tt).

End BaseLock.

End Concurrency.

(** ** job.py *)

Module Job.

Import Concurrency.

Definition JOB_ERROR_KEY : string := "error".
Definition PULSE_PERIOD : Z := 1.

(** [len(x)] on a stored value. *)
Definition len (v : value) : M nat :=
  match v with
  | VArr l => ret (length l)
  | VSub m => ret (size m)
  | VScalar (SStr s) => ret (String.length s)
  | VScalar _ => raise TypeError
  end.

(** [pulse_worker]: [ticks] are the readings of [datetime.utcnow()] at
    the periods that elapse before [stop_event] is set. The [update]
    the source builds ends in a comma. *)
Fixpoint pulse_worker (job_id unique_id : string) (ticks : list Z) : M unit :=
  match ticks with
  | [] => ret tt
  | now :: later =>
      let filter := Query job_id [] in
      let update := Tuple1 [Set_ (Dot "pulse" unique_id) (SDate now)] in
      run! update_one filter update true in
      pulse_worker job_id unique_id later
  end.

(** The attributes of an [OnlineJob] that the database code reads and
    writes. [_id] is the cached [get_id()]; [_pulse] stands for both
    [_pulse] and [_pulse_stop_event], which are set and cleared together. *)
Record job := Job {
  _unique_id : string;
  _id : string;
  _parameters : value;
  _wd : string;
  _cwd : option string;
  _timeout : Z;
  _blocking : bool;
  _pulse : option unit;
  _registered_flag : bool
}.

Definition set_cwd (c : option string) (j : job) : job :=
  Job (_unique_id j) (_id j) (_parameters j) (_wd j) c
      (_timeout j) (_blocking j) (_pulse j) (_registered_flag j).
Definition set_pulse (p : option unit) (j : job) : job :=
  Job (_unique_id j) (_id j) (_parameters j) (_wd j) (_cwd j)
      (_timeout j) (_blocking j) p (_registered_flag j).
Definition set_registered_flag (b : bool) (j : job) : job :=
  Job (_unique_id j) (_id j) (_parameters j) (_wd j) (_cwd j)
      (_timeout j) (_blocking j) (_pulse j) b.

Section OnlineJob.

(** From modules outside this development: [JOB_PARAMETERS_KEY] of
    [project.py], the pymongo major version, and the platform's
    [TIMEOUT_MAX]. *)
Variable JOB_PARAMETERS_KEY : string.
Variable PYMONGO_3 : bool.
Variable TIMEOUT_MAX : Z.

(** *** BaseJob. Directories and manifests are left out; the change of
    working directory and [logger.info] are recorded in the log. *)

Definition BaseJob_open (self : job) (cwd : string) : M job :=
  run! emit (LogInfo ("Opened job with id: '" +:+ _id self +:+ "'.")) in
  run! emit (Chdir (_wd self)) in
  ret (set_cwd (Some cwd) self).

Definition BaseJob_close_stage_one (self : job) : M job :=
  match _cwd self with
  | Some dir => run! emit (Chdir dir) in ret (set_cwd None self)
  | None => raise TypeError
  end.

Definition _close_stage_two (self : job) : M unit :=
  emit (LogInfo ("Closing job with id: '" +:+ _id self +:+ "'.")).

(** *** OnlineJob *)

Definition _filter (self : job) : query := Query (_id self) [].

Definition _make_doc (self : job) : update :=
  [SetOnInsert JOB_PARAMETERS_KEY (_parameters self)].

Definition _register_online (self : job) : M unit :=
  let! result := find_one_and_update (_filter self) (_make_doc self) true true in
  match result with
  | Some _ => ret tt
  | None => raise TypeError
  end.

Definition _registered (self : job) : M job :=
  if _registered_flag self then ret self
  else run! _register_online self in ret (set_registered_flag true self).

Definition _add_instance (self : job) : M unit :=
  let doc := [Push "executing" (EScalar (SStr (_unique_id self)))] in
  update_one (_filter self) (Mapping doc) false.

Definition _remove_instance (self : job) : M nat :=
  let update := [Pull "executing" (EScalar (SStr (_unique_id self)))] in
  let! result :=
    (if PYMONGO_3 then find_one_and_update (_filter self) update false true
     else find_and_modify (_filter self) update true) in
  match result with
  | None => raise TypeError
  | Some d =>
      match d !! "executing" with
      | None => raise KeyError
      | Some v => len v
      end
  end.

Definition _start_pulse (self : job) : M job :=
  match _pulse self with
  | Some _ => raise AssertionError
  | None => ret (set_pulse (Some tt) self)
  end.

(** [exited] tells whether the worker has ended when
    [join(2 * PULSE_PERIOD)] returns. *)
Definition _stop_pulse (self : job) (exited : bool) : M job :=
  match _pulse self with
  | None => ret self
  | Some _ =>
      if negb exited then raise AssertionError
      else
        let doc := [Unset (Dot "pulse" (_unique_id self))] in
        run! update_one (_filter self) (Mapping doc) false in
        ret (set_pulse None self)
  end.

Definition _open (self : job) (cwd : string) : M job :=
  let! self := BaseJob_open self cwd in
  let! self := _start_pulse self in
  run! _add_instance self in
  ret self.

Definition _close_stage_one (self : job) (exited : bool) : M job :=
  let! self := BaseJob_close_stage_one self in
  let! self := _stop_pulse self exited in
  let! n := _remove_instance self in
  ret self.

(** Python's [a or b] on the optional arguments of [_get_lock]. *)
Definition or_bool (a : option bool) (b : bool) : bool :=
  match a with Some true => true | _ => b end.
Definition or_Z (a : option Z) (b : Z) : Z :=
  match a with
  | Some t => if t =? 0 then b else t
  | None => b
  end.

(** [uuid] is the [uuid4()] the new [DocumentLock] draws. *)
Definition _get_lock (self : job) (blocking : option bool) (timeout : option Z)
                     (uuid : N) : M (lock * job) :=
  let! self := _registered self in
  ret (Lock uuid (_id self) (or_bool blocking (_blocking self))
            (or_Z timeout (_timeout self)), self).

Definition with_job_lock {A} (l : lock) (attempts late : nat) (body : M A) : M A :=
  @with_lock TIMEOUT_MAX DocumentLock A l attempts late body.

Definition open (self : job) (cwd : string) (uuid : N) (attempts late : nat) : M job :=
  let! lj := _get_lock self None None uuid in
  with_job_lock lj.1 attempts late (_open lj.2 cwd).


Definition __enter__ (self : job) (cwd : string) (uuid : N) (attempts late : nat) : M job :=
  open self cwd uuid attempts late.

(** The error in flight, as [str(err_type)] and [str(err_value)]. *)
Record error := Error { err_type : string; err_value : string }.

Definition err_doc (e : error) : string :=
  err_type e +:+ ":" +:+ err_value e.

(** [OnlineJob.__exit__]; the value returned next to the job is what
    the method returns ([None] when it falls off its end). *)
Definition __exit__ (self : job) (err : option error) (uuid : N)
                    (attempts late : nat) (exited : bool) : M (option bool * job) :=
  let! lj := _get_lock self None None uuid in
  let self := lj.2 in
  with_job_lock lj.1 attempts late
    match err with
    | None =>
        let! self := _close_stage_one self exited in
        run! _close_stage_two self in
        ret (None, self)
    | Some e =>
        run! update_one (_filter self)
               (Mapping [Push JOB_ERROR_KEY (EScalar (SStr (err_doc e)))]) false in
        let! self := _close_stage_one self exited in
        ret (Some false, self)
    end.

Definition _open_instances (self : job) : M value :=
  let! job_doc := find_one (_filter self) in
  match job_doc with
  | None => ret (VArr [])
  | Some d => ret (default (VArr []) (d !! "executing"))
  end.

Definition num_open_instances (self : job) : M nat :=
  let! l := _open_instances self in len l.

Definition is_exclusive_instance (self : job) : M bool :=
  let! n := num_open_instances self in ret (n <=? 1)%nat.

End OnlineJob.

End Job.

(** ** Several lock objects on one document

    Lock objects in any number of processes issue their [_acquire] and
    [_release] calls against the same document; the server runs each
    [find_and_modify] atomically, so an execution is a sequence of such
    calls in some order. A lock object is named by its [_lock_id]. *)

Module Contention.

Import Concurrency.

Inductive op :=
| Attempt (i : N)     (* lock object i runs DocumentLock._acquire *)
| Release (i : N).    (* lock object i runs DocumentLock._release *)

Section OneDocument.

Variable document_id : string.

Definition lock_of (i : N) : lock := Lock i document_id true (-1).

(** [holders] are the lock objects whose last [_acquire] returned
    [True] and that have not released since. *)
Record world := World { shared : store; holders : gset N }.

Definition step (w : world) (o : op) : world :=
  match o with
  | Attempt i =>
      match DocumentLock_acquire (lock_of i) (shared w) with
      | (Ok true, s') => World s' ({[i]} ∪ holders w)
      | (_, s') => World s' (holders w)
      end
  | Release i =>
      match DocumentLock_release (lock_of i) (shared w) with
      | (Ok _, s') => World s' (holders w ∖ {[i]})
      | (_, s') => World s' (holders w)
      end
  end.

Definition run (w : world) (ops : list op) : world := foldl step w ops.

Definition owner (w : world) : option value :=
  docs (shared w) !! document_id ≫= (λ d, d !! LOCK_ID_FIELD).

End OneDocument.

End Contention.

(** ** The threads of a blocking [acquire]

    [acquire(blocking=True, timeout)] starts the thread [try_to_acquire]
    and joins it. The calling thread and the retry thread are two program
    counters over the shared [stop_event] and the store; a schedule picks
    which one moves next, and when other processes rewrite documents. *)

Module Scheduler.

Import Concurrency.

Inductive retry_pc :=
| LoopTest                  (* while(not stop_event.is_set()) *)
| Attempting                (* if self._acquire(): return True *)
| Waiting                   (* stop_event.wait(max(0.001, next(w))) *)
| Ended (acquired : bool).  (* the thread is no longer alive *)

Inductive caller_pc :=
| Joining                   (* t_acq.join(timeout = ...) *)
| TestAlive                 (* if t_acq.is_alive() *)
| Cancelling                (* stop_event.set() *)
| JoiningForGood            (* t_acq.join() *)
| Returned (result : bool).

Inductive action :=
| Retry                                   (* the retry thread moves *)
| Caller (elapsed : bool)                 (* the caller moves; has the timeout elapsed? *)
| Others (d : gmap string document).      (* other processes rewrite the collection *)

#[global] Instance action_eq_dec : EqDecision action.
Proof. solve_decision. Defined.

Record state := State {
  caller : caller_pc;
  retry : retry_pc;
  stop_event : bool;
  shared : store
}.

Definition alive (p : retry_pc) : bool :=
  match p with Ended _ => false | _ => true end.

Section Blocking.

Context {kind : LockKind}.
Variable self : lock.
Variable timeout : Z.

Definition retry_step (st : state) : state :=
  match retry st with
  | LoopTest =>
      State (caller st) (if stop_event st then Ended false else Attempting)
            (stop_event st) (shared st)
  | Attempting =>
      match _acquire self (shared st) with
      | (Ok true, s') => State (caller st) (Ended true) (stop_event st) s'
      | (Ok false, s') => State (caller st) Waiting (stop_event st) s'
      | (_, s') => State (caller st) (Ended false) (stop_event st) s'
      end
  | Waiting => State (caller st) LoopTest (stop_event st) (shared st)
  | Ended _ => st
  end.

Definition caller_step (elapsed : bool) (st : state) : state :=
  match caller st with
  | Joining =>
      if negb (alive (retry st)) || (elapsed && negb (timeout =? -1))
      then State TestAlive (retry st) (stop_event st) (shared st)
      else st
  | TestAlive =>
      State (if alive (retry st) then Cancelling else Returned true)
            (retry st) (stop_event st) (shared st)
  | Cancelling => State JoiningForGood (retry st) true (shared st)
  | JoiningForGood =>
      if alive (retry st) then st
      else State (Returned false) (retry st) (stop_event st) (shared st)
  | Returned _ => st
  end.

Definition step (st : state) (a : action) : state :=
  match a with
  | Retry => retry_step st
  | Caller elapsed => caller_step elapsed st
  | Others d => State (caller st) (retry st) (stop_event st) (Store d (log (shared st)))
  end.

Definition run (st : state) (schedule : list action) : state :=
  foldl step st schedule.

(** [t_acq.start()] has just returned. *)
Definition started (s : store) : state := State Joining LoopTest false s.

End Blocking.

End Scheduler.

(** ** Observations on a store, and sample data

    What the statements below say about a store, and the concrete stores
    and objects they are tried on. *)

Module Observe.

Import Concurrency.

(** Does the document addressed by [q] exist and satisfy [q]? *)
Definition selects (q : query) (s : store) : bool :=
  match docs s !! q_id q with
  | Some d => matches q d
  | None => false
  end.

(** The value of field [f] in the document [id], if both exist. *)
Definition field (f id : string) (s : store) : option value :=
  docs s !! id ≫= (λ d, d !! f).

(** The document of [self] carries the id of [self] in its lock field. *)
Definition held_by (self : lock) (s : store) : bool :=
  selects (DocumentLock_release_query self) s.

(** The document of [self] exists and has no lock field. *)
Definition free_for (self : lock) (s : store) : bool :=
  selects (DocumentLock_acquire_query self) s.

(** Whoever holds is the owner written in the document. *)
Definition holders_own (document_id : string) (w : Contention.world) : Prop :=
  ∀ i, i ∈ Contention.holders w →
       Contention.owner document_id w = Some (VScalar (SUuid i)).

(** The lock record of a document: its lock field and its counter field. *)
(** The [executing] list of a document; a document without the field has
    none open. [None] when the field holds something else. *)
Definition executing (d : document) : option (list elem) :=
  match d !! "executing" with
  | None => Some []
  | Some (VArr l) => Some l
  | Some _ => None
  end.


(** The heartbeat of instance [uid] in a document: [pulse.uid]. *)
Definition heartbeat (uid : string) (d : document) : option scalar :=
  match d !! "pulse" with
  | Some (VSub m) => m !! uid
  | _ => None
  end.


(** The store call by which [_remove_instance] pulls an instance. *)
Definition pull_call (PYMONGO_3 : bool) (self : Job.job) : call :=
  let update := [Pull "executing" (EScalar (SStr (Job._unique_id self)))] in
  if PYMONGO_3 then FindOneAndUpdate (Job._filter self) update
  else FindAndModify (Job._filter self) update.

Definition instance (self : Job.job) : elem := EScalar (SStr (Job._unique_id self)).

Definition lock_record (id : string) (s : store) : option (option value * option value) :=
  (λ d, (d !! LOCK_ID_FIELD, d !! LOCK_COUNTER_FIELD)) <$> docs s !! id.

Definition me (self : lock) : value := VScalar (SUuid (_lock_id self)).
Definition depth (z : Z) : value := VScalar (SInt z).

(** [k] acquisitions in a row, all of which must succeed, and [k]
    releases in a row. *)
Fixpoint acquire_times {kind : LockKind} (self : lock) (k : nat) : M bool :=
  match k with
  | O => ret true
  | S k' =>
      let! got := _acquire self in
      if got : bool then acquire_times self k' else ret false
  end.

Fixpoint release_times {kind : LockKind} (self : lock) (k : nat) : M unit :=
  match k with
  | O => ret tt
  | S k' => run! _release self in release_times self k'
  end.

(** What the caller's position says about the retry thread: it returns
    only after the thread has ended, and it returns [False] or sits in the
    final join only after setting [stop_event]. *)
Definition joined_before_return (st : Scheduler.state) : Prop :=
  match Scheduler.caller st with
  | Scheduler.Returned true => Scheduler.alive (Scheduler.retry st) = false
  | Scheduler.Returned false =>
      Scheduler.stop_event st = true ∧ Scheduler.alive (Scheduler.retry st) = false
  | Scheduler.JoiningForGood => Scheduler.stop_event st = true
  | _ => True
  end.

(** How many moves the retry thread has left at most once [stop_event]
    is set. *)
Definition moves_left (p : Scheduler.retry_pc) : nat :=
  match p with
  | Scheduler.Attempting => 3
  | Scheduler.Waiting => 2
  | Scheduler.LoopTest => 1
  | Scheduler.Ended _ => 0
  end.

Definition retry_moves (schedule : list Scheduler.action) : nat :=
  length (filter (λ a, a = Scheduler.Retry) schedule).

End Observe.

Module Sample.

Import Concurrency.

(** A document locked by the lock object 7, and the lock object 3. *)
Definition locked_by_7 : store :=
  Store {[ "abc123" := {[ LOCK_ID_FIELD := VScalar (SUuid 7) ]} ]} [].
Definition lock_3 : lock := Lock 3 "abc123" true (-1).

(** A job document that was never locked. *)
Definition fresh : store := Store {[ "abc123" := ∅ ]} [].

(** The same document after the reentrant lock 3 was acquired once, and
    after it was then released once. *)
Definition acquired_once : store := (DocumentRLock_acquire lock_3 fresh).2.
Definition after_first_cycle : store := (DocumentRLock_release lock_3 acquired_once).2.

(** A job whose document is "abc123", opened in the instance "i-1": the
    attributes as [OnlineJob._open] leaves them. *)
Definition job_1 : Job.job :=
  Job.Job "i-1" "abc123" (VSub ∅) "/ws/abc123" (Some "/home") (-1) true (Some tt) true.

(** A store without any document. *)
Definition empty : store := Store ∅ [].

(** The document of [job_1] while "i-1" is the second of two entries for
    that same instance id. *)
Definition listed_twice : store :=
  Store {[ "abc123" := {[ "executing" := VArr [EScalar (SStr "i-1")] ]} ]} [].

(** The document of [job_1] while it is open next to two other instances
    (one of them listed twice), with a heartbeat entry. *)
Definition others : list elem :=
  [EScalar (SStr "i-0"); EScalar (SStr "i-0"); EScalar (SStr "i-2"); EScalar (SStr "i-1")].
Definition doc_with_others : document :=
  {[ "executing" := VArr others; "pulse" := VSub {[ "i-1" := SDate 1000 ]} ]}.
Definition open_with_others : store := Store {[ "abc123" := doc_with_others ]} [].

(** The error a failing body leaves: [ValueError("boom")]. *)
Definition boom : Job.error := Job.Error "<class 'ValueError'>" "boom".

(** A caller that times out on a document held by someone else: two
    moves of the retry thread (one failed attempt), the timeout, the
    cancellation, the thread's way out, and the final join. *)
Definition timed_out : list Scheduler.action :=
  [Scheduler.Retry; Scheduler.Retry;
   Scheduler.Caller true; Scheduler.Caller true; Scheduler.Caller true;
   Scheduler.Retry; Scheduler.Retry; Scheduler.Caller false].

(** Another instance of the same job, not open yet. *)
Definition job_9 : Job.job :=
  Job.Job "i-9" "abc123" (VSub ∅) "/ws/abc123" None (-1) true None true.

End Sample.

(** ** Further sample data *)

Module Cases.

Import Concurrency.

(** The lock object 3 as a non-blocking lock and one with a timeout of
    two seconds. *)
Definition lock_3_nonblocking : lock := Lock 3 "abc123" false (-1).
Definition lock_3_patient : lock := Lock 3 "abc123" true 2.


(** A document locked by the reentrant lock 7 at depth 2, with other
    content. *)
Definition deep_7 : document :=
  {[ LOCK_ID_FIELD := VScalar (SUuid 7);
     LOCK_COUNTER_FIELD := VScalar (SInt 2);
     "executing" := VArr [EScalar (SStr "i-1")] ]}.
Definition locked_deep_by_7 : store := Store {[ "abc123" := deep_7 ]} [].

(** The fresh document just after lock 3 has taken it. *)
Definition taken_by_3 : store :=
  Store (<["abc123" := <[LOCK_ID_FIELD := VScalar (SUuid 3)]> ∅]> (docs Sample.fresh))
        (log Sample.fresh ++ [FindAndModify (DocumentLock_acquire_query Sample.lock_3)
                                            (DocumentLock_acquire_update Sample.lock_3)]).

(** A blocking [acquire] whose timeout fires at once while the retry
    thread is about to make its first attempt: the caller finds the thread
    alive, the thread passes the loop test, the caller sets [stop_event],
    the thread makes its attempt and ends, and the final join returns. *)
Definition overtaken : list Scheduler.action :=
  [Scheduler.Caller true; Scheduler.Caller true; Scheduler.Retry;
   Scheduler.Caller true; Scheduler.Retry; Scheduler.Caller true].

(** A blocking [acquire] whose retry thread succeeds at once. *)
Definition prompt : list Scheduler.action :=
  [Scheduler.Retry; Scheduler.Retry; Scheduler.Caller false; Scheduler.Caller false].


(** A job object just constructed for the job "abc123": not registered,
    not open. *)
Definition new_job : Job.job :=
  Job.Job "i-9" "abc123" (VSub ∅) "/ws/abc123" None (-1) true None false.

End Cases.

(** ** Several reentrant lock objects on one document

    As [Contention], for [DocumentRLock]: a lock object may hold the lock
    several times over. *)

Module ReentrantContention.

Import Concurrency.

Section OneDocument.

Variable document_id : string.

(** [holds] counts, for every lock object, its acquisitions that
    returned [True] minus its releases that returned. *)
Record world := World { shared : store; holds : gmultiset N }.

Definition step (w : world) (o : Contention.op) : world :=
  match o with
  | Contention.Attempt i =>
      match DocumentRLock_acquire (Contention.lock_of document_id i) (shared w) with
      | (Ok true, s') => World s' ({[+ i +]} ⊎ holds w)
      | (_, s') => World s' (holds w)
      end
  | Contention.Release i =>
      match DocumentRLock_release (Contention.lock_of document_id i) (shared w) with
      | (Ok _, s') => World s' (holds w ∖ {[+ i +]})
      | (_, s') => World s' (holds w)
      end
  end.

Definition run (w : world) (ops : list Contention.op) : world := foldl step w ops.

(** The lock record and the counts agree: a missing or unlocked document
    has no holder and a counter that is absent or not negative; a locked
    document has a counter of at least 1, only its owner holds, and not
    more often than the counter says. *)
Definition consistent (w : world) : Prop :=
  match Observe.lock_record document_id (shared w) with
  | None => holds w = ∅
  | Some (None, c) =>
      holds w = ∅ ∧ (c = None ∨ ∃ z, c = Some (Observe.depth z) ∧ 0 ≤ z)
  | Some (Some o, c) =>
      ∃ i z, o = VScalar (SUuid i) ∧ c = Some (Observe.depth z) ∧ 1 ≤ z ∧
             (∀ j, j ≠ i → multiplicity j (holds w) = 0%nat) ∧
             Z.of_nat (multiplicity i (holds w)) ≤ z
  end.

End OneDocument.

End ReentrantContention.

(** ** Removing a job, releasing its lock by force *)

Module Administration.

Import Concurrency Job.

(** [collection.delete_one(filter)] and pymongo 2's
    [collection.remove(filter)]: the document with the filter's id goes
    if it satisfies the filter. A deletion leaves no entry in the log. *)
Definition delete_one (q : query) : M unit :=
  λ s, match docs s !! q_id q with
       | Some d =>
           if matches q d then (Ok tt, Store (delete (q_id q) (docs s)) (log s))
           else (Ok tt, s)
       | None => (Ok tt, s)
       end.

Section OnlineJob.

Variable JOB_PARAMETERS_KEY : string.

(** What [_remove] does before it deletes the job document: [clear()],
    [storage.remove()], [document.remove()] and the removal of the
    workspace directory. They go through classes outside these files
    and act on the file system and on other collections. *)
Variable dependents : job → M unit.

Definition _remove (self : job) : M unit :=
  run! dependents self in
  delete_one (_filter self).

Definition remove (self : job) (force : bool) : M unit :=
  run! (if negb force then
          let! n := num_open_instances self in
          if negb (n =? 0)%nat then
            let! shown := num_open_instances self in
            raise RuntimeError
          else ret tt
        else ret tt) in
  _remove self.

(** [OnlineJob.force_release]. *)
Definition OnlineJob_force_release (self : job) (uuid : N) : M job :=
  let! lj := _get_lock JOB_PARAMETERS_KEY self None None uuid in
  run! force_release lj.1 in
  ret lj.2.

End OnlineJob.

End Administration.

(** ** Views of a job and its document *)

Module JobView.

Import Job.

(** The document a job works on once it is registered: the one in the
    collection, or the one the upsert inserts. *)
Definition registered_doc (JOB_PARAMETERS_KEY : string) (self : job) (s : store) : document :=
  default {[ JOB_PARAMETERS_KEY := _parameters self ]} (docs s !! _id self).


(** The lock [_get_lock()] builds for a job. *)
Definition job_lock (self : job) (uuid : N) : Concurrency.lock :=
  Concurrency.Lock uuid (_id self) (or_bool None (_blocking self))
                   (or_Z None (_timeout self)).

(** The store calls of the job's lock. *)
Definition take (self : job) (uuid : N) : call :=
  FindAndModify (Query (_id self) [FieldExists Concurrency.LOCK_ID_FIELD false])
                [Set_ (Top Concurrency.LOCK_ID_FIELD) (SUuid uuid)].


End JobView.

(** ** script.py: the jobs a [remove] command selects *)

Module Script.

(** The selection in [remove(args)]: [job] is [args.job], [legit_ids]
    what [project.find_job_ids()] yields. *)
Definition select (job : list string) (legit_ids : list string) : gset string :=
  if bool_decide (length job = 1%nat ∧ job !! 0%nat = Some "all")
  then list_to_set legit_ids
  else
    let job_ids : gset string := list_to_set job in
    foldl (λ match_ legit_id,
             foldl (λ m selected,
                      if String.prefix selected legit_id then {[legit_id]} ∪ m else m)
                   match_ (elements job_ids))
          ∅ legit_ids.

End Script.

(** * Properties *)

(** ** The store primitives *)

Module MongoFacts.

Import Observe.

Lemma modify_miss q u s :
  selects q s = false → modify q u false s = (Ok None, s).
Proof.
  unfold selects, modify. destruct (docs s !! q_id q) as [d|]; [|done].
  by intros ->.
Qed.

Lemma modify_hit q u upsert s d d' :
  docs s !! q_id q = Some d → matches q d = true → apply_update u d = Some d' →
  modify q u upsert s
  = (Ok (Some (Some d, d')), Store (<[q_id q := d']> (docs s)) (log s)).
Proof. unfold modify. by intros -> -> ->. Qed.

Lemma find_and_modify_miss q u new s :
  selects q s = false →
  find_and_modify q u new s = (Ok None, logged (FindAndModify q u) s).
Proof.
  intros H. unfold find_and_modify, bind, emit.
  rewrite modify_miss; [done|]. by destruct s.
Qed.

Lemma find_and_modify_hit q u new s d d' :
  docs s !! q_id q = Some d → matches q d = true → apply_update u d = Some d' →
  find_and_modify q u new s
  = (Ok (Some (if new then d' else d)),
     Store (<[q_id q := d']> (docs s)) (log s ++ [FindAndModify q u])).
Proof.
  intros Hd Hm Hu. unfold find_and_modify, bind, emit.
  rewrite (modify_hit q u false (logged _ s) d d') by done. by destruct new.
Qed.

Lemma find_one_and_update_hit q u upsert after s d d' :
  docs s !! q_id q = Some d → matches q d = true → apply_update u d = Some d' →
  find_one_and_update q u upsert after s
  = (Ok (Some (if after then d' else d)),
     Store (<[q_id q := d']> (docs s)) (log s ++ [FindOneAndUpdate q u])).
Proof.
  intros Hd Hm Hu. unfold find_one_and_update, bind, emit.
  rewrite (modify_hit q u upsert (logged _ s) d d') by done. by destruct after.
Qed.

Lemma update_one_hit q u upsert s d d' :
  docs s !! q_id q = Some d → matches q d = true → apply_update u d = Some d' →
  update_one q (Mapping u) upsert s
  = (Ok tt, Store (<[q_id q := d']> (docs s)) (log s ++ [UpdateOne q (Mapping u)])).
Proof.
  intros Hd Hm Hu. unfold update_one, bind, emit.
  by rewrite (modify_hit q u upsert (logged _ s) d d').
Qed.

(** A tuple never reaches the server. *)
Lemma update_one_tuple q u upsert s :
  update_one q (Tuple1 u) upsert s = (Raise TypeError, logged (UpdateOne q (Tuple1 u)) s).
Proof. done. Qed.

End MongoFacts.

(** ** DocumentLock and the argument checks of [acquire] *)

Module LockFacts.

Import Concurrency Observe MongoFacts.

Lemma DocumentLock_acquire_spec self s :
  DocumentLock_acquire self s
  = (Ok (free_for self s),
     Store (if free_for self s
            then alter (insert LOCK_ID_FIELD (VScalar (SUuid (_lock_id self))))
                       (_document_id self) (docs s)
            else docs s)
           (log s ++ [FindAndModify (DocumentLock_acquire_query self)
                                    (DocumentLock_acquire_update self)])).
Proof.
  unfold DocumentLock_acquire, bind, free_for.
  destruct (selects _ s) eqn:Hsel.
  - unfold selects in Hsel.
    destruct (docs s !! q_id (DocumentLock_acquire_query self)) as [d|] eqn:Hd; [|done].
    erewrite find_and_modify_hit by done. simpl. unfold ret. do 2 f_equal.
    simpl in Hd. apply map_eq. intros i.
    destruct (decide (i = _document_id self)) as [->|Hne].
    + by rewrite lookup_insert_eq, lookup_alter_eq, Hd.
    + by rewrite lookup_insert_ne, lookup_alter_ne.
  - by rewrite find_and_modify_miss.
Qed.

Lemma DocumentLock_release_spec self s :
  DocumentLock_release self s
  = (if held_by self s then Ok tt else Raise DocumentLockError,
     Store (if held_by self s
            then alter (delete LOCK_ID_FIELD) (_document_id self) (docs s)
            else docs s)
           (log s ++ [FindAndModify (DocumentLock_release_query self)
                                    DocumentLock_release_update])).
Proof.
  unfold DocumentLock_release, bind, held_by.
  destruct (selects _ s) eqn:Hsel.
  - unfold selects in Hsel.
    destruct (docs s !! q_id (DocumentLock_release_query self)) as [d|] eqn:Hd; [|done].
    erewrite find_and_modify_hit by done. simpl. unfold ret. do 2 f_equal.
    simpl in Hd. apply map_eq. intros i.
    destruct (decide (i = _document_id self)) as [->|Hne].
    + by rewrite lookup_insert_eq, lookup_alter_eq, Hd.
    + by rewrite lookup_insert_ne, lookup_alter_ne.
  - by rewrite find_and_modify_miss.
Qed.

End LockFacts.

Module ExclusiveLockProperties.

Import Concurrency Observe Sample MongoFacts LockFacts.

(** C7. [DocumentLock.release] is exactly one [find_and_modify] whose
    query asks for the lock field to equal the id of [self] and whose
    update unsets that field. When the query selects nothing (the field
    was changed from outside, or the lock was released already), the call
    raises [DocumentLockError], every document is as it was, and no
    further store call is made. *)
Theorem release_mismatch_raises_and_keeps_document (self : lock) (s : store) :
  held_by self s = false →
  release (kind := DocumentLock) self s
  = (Raise DocumentLockError,
     Store (docs s)
           (log s ++ [FindAndModify
                        (Query (_document_id self)
                               [FieldIs LOCK_ID_FIELD (SUuid (_lock_id self))])
                        [Unset (Top LOCK_ID_FIELD)]])).
Proof.
  intros H. unfold release. simpl. rewrite DocumentLock_release_spec. by rewrite H.
Qed.

Lemma release_mismatch_witness :
  held_by lock_3 locked_by_7 = false ∧
  release (kind := DocumentLock) lock_3 locked_by_7
  = (Raise DocumentLockError,
     Store (docs locked_by_7)
           [FindAndModify (Query "abc123" [FieldIs LOCK_ID_FIELD (SUuid 3)])
                          [Unset (Top LOCK_ID_FIELD)]]).
Proof.
  split; [reflexivity|].
  apply (release_mismatch_raises_and_keeps_document lock_3 locked_by_7).
  reflexivity.
Defined.

(** C8, as the code has it. With [blocking=False], any [timeout] other
    than the default [-1] raises [ValueError]; with [blocking=True], a
    [timeout] above [TIMEOUT_MAX] raises [OverflowError]; with
    [blocking=False], a [timeout] above [TIMEOUT_MAX] raises [ValueError]
    all the same. Each time the store is exactly as before: no call was
    made. *)
Theorem acquire_checks_arguments_first
    (TIMEOUT_MAX : Z) (kind : LockKind) (self : lock)
    (blocking : bool) (timeout : Z) (attempts late : nat) (s : store) :
  (blocking = false ∧ timeout ≠ -1 →
     acquire TIMEOUT_MAX self blocking timeout attempts late s = (Raise ValueError, s)) ∧
  (blocking = true ∧ timeout > TIMEOUT_MAX →
     acquire TIMEOUT_MAX self blocking timeout attempts late s = (Raise OverflowError, s)) ∧
  (blocking = false ∧ timeout > TIMEOUT_MAX ∧ -1 ≤ TIMEOUT_MAX →
     acquire TIMEOUT_MAX self blocking timeout attempts late s = (Raise ValueError, s)).
Proof.
  unfold acquire. split; [|split].
  - intros [-> Ht]. simpl. by destruct (Z.eqb_spec timeout (-1)).
  - intros [-> Ht]. simpl. by destruct (Z.gtb_spec timeout TIMEOUT_MAX); [|lia].
  - intros (-> & Ht & Hmax). simpl. by destruct (Z.eqb_spec timeout (-1)); [lia|].
Qed.

(** C8 as stated fails where both conditions meet: a non-blocking call
    with a timeout above the maximum raises [ValueError], because that
    check comes first. *)
Lemma acquire_overflow_loses_to_value_error :
  acquire (kind := DocumentLock) 100000 lock_3 false 100001 1 0 locked_by_7
  = (Raise ValueError, locked_by_7) ∧
  ¬ (∀ (TIMEOUT_MAX : Z) (self : lock) (blocking : bool) (timeout : Z)
       (attempts late : nat) (s : store),
       timeout > TIMEOUT_MAX →
       (acquire (kind := DocumentLock) TIMEOUT_MAX self blocking timeout attempts late s).1
       = Raise OverflowError).
Proof.
  split; [reflexivity|]. intros H.
  specialize (H 100000 lock_3 false 100001 1%nat 0%nat locked_by_7 eq_refl).
  discriminate H.
Qed.

End ExclusiveLockProperties.

Module ContentionProperties.

Import Concurrency Observe Sample MongoFacts LockFacts Contention.

Section OneDocument.

Variable document_id : string.

Lemma free_for_no_owner i s h :
  free_for (lock_of document_id i) s = true →
  owner document_id (World s h) = None.
Proof.
  unfold free_for, selects, owner. simpl.
  destruct (docs s !! document_id) as [d|]; [|done]. simpl.
  unfold matches. simpl. rewrite andb_true_r.
  destruct (d !! LOCK_ID_FIELD) as [v|] eqn:Hv; [|done].
  rewrite bool_decide_eq_true_2 by eauto. done.
Qed.

Lemma held_by_owner i j s h :
  held_by (lock_of document_id i) s = true →
  owner document_id (World s h) = Some (VScalar (SUuid j)) → i = j.
Proof.
  unfold held_by, selects, owner. simpl.
  destruct (docs s !! document_id) as [d|]; [|done]. simpl.
  unfold matches. simpl. rewrite andb_true_r. intros Hm Hd.
  rewrite Hd in Hm. apply bool_decide_eq_true_1 in Hm. congruence.
Qed.

Lemma owner_after_acquire i s h l :
  free_for (lock_of document_id i) s = true →
  owner document_id
    (World (Store (alter (insert LOCK_ID_FIELD (VScalar (SUuid i)))
                         document_id (docs s)) l) h)
  = Some (VScalar (SUuid i)).
Proof.
  unfold free_for, selects, owner. simpl. rewrite lookup_alter_eq.
  destruct (docs s !! document_id) as [d|]; [|done]. simpl. intros _.
  by rewrite lookup_insert_eq.
Qed.

Lemma step_holders_own w o :
  holders_own document_id w → holders_own document_id (step document_id w o).
Proof.
  intros Hinv. destruct w as [s h], o as [i|i]; unfold step; simpl.
  - rewrite DocumentLock_acquire_spec.
    destruct (free_for (lock_of document_id i) s) eqn:Hfree; [|exact Hinv].
    pose proof (free_for_no_owner i s h Hfree) as Hnone.
    intros j Hj. simpl in Hj.
    assert (j = i) as ->.
    { apply elem_of_union in Hj as [Hj|Hj]; [set_solver|].
      specialize (Hinv j Hj). congruence. }
    by apply owner_after_acquire.
  - rewrite DocumentLock_release_spec.
    destruct (held_by (lock_of document_id i) s) eqn:Hheld; [|exact Hinv].
    intros j Hj. simpl in Hj.
    apply elem_of_difference in Hj as [Hj Hne].
    pose proof (held_by_owner i j s h Hheld (Hinv j Hj)). set_solver.
Qed.

Lemma run_holders_own ops w :
  holders_own document_id w → holders_own document_id (run document_id w ops).
Proof.
  revert w. induction ops as [|o ops IH]; intros w Hinv; [done|].
  simpl. apply IH. by apply step_holders_own.
Qed.

(** C1. Any number of [DocumentLock] objects issue acquisition
    attempts and releases on one document, in any order. After every
    such sequence (hence at every instant of it) at most one lock
    object holds the lock, and the holder is the owner recorded in the
    document. An attempt is one [find_and_modify], and it succeeds only
    on a document without the lock field. *)
Theorem at_most_one_holder (s : store) (ops : list op) :
  let w := run document_id (World s ∅) ops in
  (∀ i j, i ∈ holders w → j ∈ holders w → i = j) ∧
  (∀ i, i ∈ holders w → owner document_id w = Some (VScalar (SUuid i))) ∧
  (∀ i, let r := DocumentLock_acquire (lock_of document_id i) (shared w) in
          log r.2 = (log (shared w) ++
                    [FindAndModify (Query document_id [FieldExists LOCK_ID_FIELD false])
                                   [Set_ (Top LOCK_ID_FIELD) (SUuid i)]])%list ∧
          (r.1 = Ok true → owner document_id w = None)).
Proof.
  intros w.
  assert (holders_own document_id w) as Hinv.
  { apply run_holders_own. intros i Hi. set_solver. }
  split; [|split].
  - intros i j Hi Hj. pose proof (Hinv i Hi). pose proof (Hinv j Hj). congruence.
  - exact Hinv.
  - intros i r. subst r. rewrite DocumentLock_acquire_spec. simpl.
    split; [done|]. intros Hok.
    apply (free_for_no_owner i (shared w) (holders w)). congruence.
Qed.

End OneDocument.

(** Three lock objects race for a free document: 1 wins, 2 and 3 fail
    until 1 releases, then 3 wins. *)
Example race_of_three :
  let free := Store {[ "abc123" := ∅ ]} [] in
  holders (run "abc123" (World free ∅) [Attempt 1; Attempt 2; Attempt 3]) = {[ 1%N ]} ∧
  holders (run "abc123" (World free ∅)
               [Attempt 1; Attempt 2; Release 2; Release 1; Attempt 3; Attempt 2])
  = {[ 3%N ]}.
Proof. split; by vm_compute. Qed.

End ContentionProperties.

(** ** DocumentRLock *)

Module ReentrantLockFacts.

Import Concurrency Observe Sample MongoFacts.

(** Two descriptions of a lock record that differ in how the counter is
    written. *)
Ltac same_record H :=
  rewrite H; first [reflexivity | unfold depth; do 5 f_equal; lia].

Lemma acquire_times_succ (kind : LockKind) self k s s' :
  _acquire self s = (Ok true, s') →
  acquire_times self (S k) s = acquire_times self k s'.
Proof. intros H. simpl. unfold bind. by rewrite H. Qed.

Lemma release_times_succ (kind : LockKind) self k s s' :
  _release self s = (Ok tt, s') →
  release_times self (S k) s = release_times self k s'.
Proof. intros H. simpl. unfold bind. by rewrite H. Qed.

Lemma release_times_snoc (kind : LockKind) self k : ∀ s s' s'',
  release_times self k s = (Ok tt, s') →
  _release self s' = (Ok tt, s'') →
  release_times self (S k) s = (Ok tt, s'').
Proof.
  induction k as [|k IH]; intros s s' s'' Hk Hlast.
  - injection Hk as <-. by rewrite (release_times_succ kind self 0 s s'').
  - destruct (_release self s) as [[[]|e|] s0] eqn:Hfirst.
    + rewrite (release_times_succ kind self (S k) s s0 Hfirst).
      rewrite (release_times_succ kind self k s s0 Hfirst) in Hk.
      by apply (IH s0 s' s'').
    + simpl in Hk. unfold bind in Hk. by rewrite Hfirst in Hk.
    + simpl in Hk. unfold bind in Hk. by rewrite Hfirst in Hk.
Qed.

Section OneLock.

Variable self : lock.

Lemma lock_record_insert s id d l :
  lock_record id (Store (<[id := d]> (docs s)) l)
  = Some (d !! LOCK_ID_FIELD, d !! LOCK_COUNTER_FIELD).
Proof. unfold lock_record. simpl. by rewrite lookup_insert_eq. Qed.

(** An acquisition by the owner, or on an unlocked document, succeeds,
    writes the owner and adds one to the counter (a missing counter
    counts as 0). *)
Lemma DocumentRLock_acquire_ok s o c z :
  lock_record (_document_id self) s = Some (o, c) →
  o = None ∨ o = Some (me self) →
  c = None ∧ z = 0 ∨ c = Some (depth z) →
  ∃ s', DocumentRLock_acquire self s = (Ok true, s') ∧
        lock_record (_document_id self) s' = Some (Some (me self), Some (depth (z + 1))).
Proof.
  intros Hrec Ho Hc. unfold lock_record in Hrec.
  destruct (docs s !! _document_id self) as [d|] eqn:Hd; [|done].
  simpl in Hrec. injection Hrec as HL HC.
  assert (matches (DocumentRLock_acquire_query self) d = true) as Hm.
  { unfold matches. simpl. rewrite HL, andb_true_r.
    destruct Ho as [->| ->]; [done|].
    unfold me. simpl. by rewrite bool_decide_eq_true_2. }
  assert (apply_update (DocumentRLock_acquire_update self) d
          = Some (<[LOCK_COUNTER_FIELD := depth (z + 1)]>
                    (<[LOCK_ID_FIELD := me self]> d))) as Hu.
  { simpl. rewrite lookup_insert_ne by done. rewrite HC.
    destruct Hc as [[-> ->]| ->]; done. }
  eexists. unfold DocumentRLock_acquire, bind.
  erewrite find_and_modify_hit by done. split; [done|].
  unfold DocumentRLock_acquire_query. simpl q_id.
  rewrite lock_record_insert. rewrite lookup_insert_ne by done.
  by rewrite !lookup_insert_eq.
Qed.

(** A release at counter 1 by the owner is the full release: the lock
    field goes, the counter field stays as it is. *)
Lemma DocumentRLock_release_full s :
  lock_record (_document_id self) s = Some (Some (me self), Some (depth 1)) →
  ∃ s', DocumentRLock_release self s = (Ok tt, s') ∧
        lock_record (_document_id self) s' = Some (None, Some (depth 1)) ∧
        log s' = log s ++ [FindAndModify (DocumentRLock_full_query self)
                                         [Unset (Top LOCK_ID_FIELD); Unset (Top "lock_level")]].
Proof.
  intros Hrec. unfold lock_record in Hrec.
  destruct (docs s !! _document_id self) as [d|] eqn:Hd; [|done].
  simpl in Hrec. injection Hrec as HL HC.
  assert (matches (DocumentRLock_full_query self) d = true) as Hm.
  { unfold matches. simpl. rewrite HL, HC. simpl.
    by rewrite !bool_decide_eq_true_2. }
  eexists. unfold DocumentRLock_release, bind.
  erewrite find_and_modify_hit by done. split; [done|]. split; [|done].
  unfold DocumentRLock_full_query. simpl q_id.
  rewrite lock_record_insert. rewrite lookup_delete_ne by done.
  rewrite lookup_delete_eq. rewrite !lookup_delete_ne by done. by rewrite HC.
Qed.

(** A release at any other counter by the owner is the partial release:
    the counter goes down by one and the lock stays. *)
Lemma DocumentRLock_release_partial s z :
  lock_record (_document_id self) s = Some (Some (me self), Some (depth z)) →
  z ≠ 1 →
  ∃ s', DocumentRLock_release self s = (Ok tt, s') ∧
        lock_record (_document_id self) s' = Some (Some (me self), Some (depth (z - 1))).
Proof.
  intros Hrec Hz. unfold lock_record in Hrec.
  destruct (docs s !! _document_id self) as [d|] eqn:Hd; [|done].
  simpl in Hrec. injection Hrec as HL HC.
  assert (selects (DocumentRLock_full_query self) s = false) as Hfull.
  { unfold selects. simpl. rewrite Hd. unfold matches. simpl. rewrite HL, HC. simpl.
    rewrite (bool_decide_eq_false_2 (SInt z = SInt 1)) by congruence.
    apply andb_false_r. }
  assert (matches (DocumentRLock_partial_query self) d = true) as Hm.
  { unfold matches. simpl. rewrite HL. simpl. by rewrite bool_decide_eq_true_2. }
  assert (apply_update DocumentRLock_partial_update d
          = Some (<[LOCK_COUNTER_FIELD := depth (z - 1)]> d)) as Hu.
  { simpl. by rewrite HC. }
  eexists. unfold DocumentRLock_release, bind.
  rewrite find_and_modify_miss by done.
  erewrite find_and_modify_hit by done. split; [done|].
  unfold DocumentRLock_partial_query. simpl q_id.
  rewrite lock_record_insert. rewrite lookup_insert_ne by done.
  by rewrite lookup_insert_eq, HL.
Qed.

(** A release on an unlocked document raises and changes no document. *)
Lemma DocumentRLock_release_unlocked s c :
  lock_record (_document_id self) s = Some (None, c) →
  ∃ s', DocumentRLock_release self s = (Raise DocumentLockError, s') ∧
        docs s' = docs s.
Proof.
  intros Hrec. unfold lock_record in Hrec.
  destruct (docs s !! _document_id self) as [d|] eqn:Hd; [|done].
  simpl in Hrec. injection Hrec as HL HC.
  assert (selects (DocumentRLock_full_query self) s = false) as Hfull.
  { unfold selects. simpl. rewrite Hd. unfold matches. simpl. by rewrite HL. }
  assert (selects (DocumentRLock_partial_query self) (logged
            (FindAndModify (DocumentRLock_full_query self) DocumentRLock_full_update) s)
          = false) as Hpart.
  { unfold selects. simpl. rewrite Hd. unfold matches. simpl. by rewrite HL. }
  eexists. unfold DocumentRLock_release, bind.
  rewrite find_and_modify_miss by done.
  rewrite find_and_modify_miss by done. done.
Qed.

Lemma acquire_times_ok k : ∀ s o c z,
  lock_record (_document_id self) s = Some (o, c) →
  o = None ∨ o = Some (me self) →
  c = None ∧ z = 0 ∨ c = Some (depth z) →
  ∃ s', acquire_times (kind := DocumentRLock) self (S k) s = (Ok true, s') ∧
        lock_record (_document_id self) s'
        = Some (Some (me self), Some (depth (z + Z.of_nat (S k)))).
Proof.
  induction k as [|k IH]; intros s o c z Hrec Ho Hc.
  - destruct (DocumentRLock_acquire_ok s o c z Hrec Ho Hc) as (s' & Hacq & Hrec').
    exists s'. rewrite (acquire_times_succ DocumentRLock self 0 s s' Hacq).
    split; [done|]. same_record Hrec'.
  - destruct (DocumentRLock_acquire_ok s o c z Hrec Ho Hc) as (s' & Hacq & Hrec').
    destruct (IH s' _ _ (z + 1) Hrec' (or_intror eq_refl) (or_intror eq_refl))
      as (s'' & Hrest & Hrec'').
    exists s''. rewrite (acquire_times_succ DocumentRLock self (S k) s s' Hacq).
    split; [done|]. same_record Hrec''.
Qed.

(** Releases above counter 1 are all partial. *)
Lemma release_times_partial k : ∀ s z,
  lock_record (_document_id self) s = Some (Some (me self), Some (depth (z + Z.of_nat k))) →
  1 ≤ z →
  ∃ s', release_times (kind := DocumentRLock) self k s = (Ok tt, s') ∧
        lock_record (_document_id self) s' = Some (Some (me self), Some (depth z)).
Proof.
  induction k as [|k IH]; intros s z Hrec Hz.
  - exists s. split; [done|]. same_record Hrec.
  - destruct (DocumentRLock_release_partial s _ Hrec ltac:(lia)) as (s' & Hrel & Hrec').
    destruct (IH s' z) as (s'' & Hrest & Hrec''); [|done|].
    { same_record Hrec'. }
    exists s''. by rewrite (release_times_succ DocumentRLock self k s s' Hrel).
Qed.

(** From counter [k], [k] releases end with the full release. *)
Lemma release_times_all k : ∀ s,
  lock_record (_document_id self) s = Some (Some (me self), Some (depth (Z.of_nat (S k)))) →
  ∃ s', release_times (kind := DocumentRLock) self (S k) s = (Ok tt, s') ∧
        lock_record (_document_id self) s' = Some (None, Some (depth 1)).
Proof.
  intros s Hrec.
  destruct (release_times_partial k s 1) as (s' & Hrel & Hrec'); [|lia|].
  { same_record Hrec. }
  destruct (DocumentRLock_release_full s' Hrec') as (s'' & Hfull & Hrec'' & _).
  exists s''. split; [|done].
  by apply (release_times_snoc DocumentRLock self k s s' s'').
Qed.

End OneLock.

End ReentrantLockFacts.

Module ReentrantLockProperties.

Import Concurrency Observe Sample MongoFacts ReentrantLockFacts.

(** On a document that was never locked, [k ≥ 1] acquisitions followed by
    [k] releases end unlocked, and one more release raises
    [DocumentLockError] without touching a document. The counter field is
    left behind with value 1. *)
Theorem round_trip_on_fresh_document (self : lock) (s : store) (k : nat) :
  lock_record (_document_id self) s = Some (None, None) →
  ∃ s1 s2 s3,
    acquire_times (kind := DocumentRLock) self (S k) s = (Ok true, s1) ∧
    release_times (kind := DocumentRLock) self (S k) s1 = (Ok tt, s2) ∧
    lock_record (_document_id self) s2 = Some (None, Some (depth 1)) ∧
    DocumentRLock_release self s2 = (Raise DocumentLockError, s3) ∧
    docs s3 = docs s2.
Proof.
  intros Hrec.
  destruct (acquire_times_ok self k s None None 0 Hrec) as (s1 & Hacq & Hrec1);
    [by left|by left|].
  destruct (release_times_all self k s1 Hrec1) as (s2 & Hrel & Hrec2).
  destruct (DocumentRLock_release_unlocked self s2 _ Hrec2) as (s3 & Hlast & Hsame).
  by exists s1, s2, s3.
Qed.

Lemma round_trip_on_fresh_document_witness :
  lock_record "abc123" fresh = Some (None, None) ∧
  ∃ s1 s2 s3,
    acquire_times (kind := DocumentRLock) lock_3 3 fresh = (Ok true, s1) ∧
    release_times (kind := DocumentRLock) lock_3 3 s1 = (Ok tt, s2) ∧
    lock_record "abc123" s2 = Some (None, Some (depth 1)) ∧
    DocumentRLock_release lock_3 s2 = (Raise DocumentLockError, s3) ∧
    docs s3 = docs s2.
Proof.
  split; [reflexivity|].
  apply (round_trip_on_fresh_document lock_3 fresh 2). reflexivity.
Defined.

(** C2, where the code departs from it. A document that has been through
    one acquire/release cycle is unlocked but still carries counter 1.
    From there, [k ≥ 1] acquisitions followed by [k] releases leave the
    document locked by the same owner at counter 1, and the release after
    those succeeds instead of raising. *)
Theorem round_trip_after_a_cycle_stays_locked (self : lock) (s : store) (k : nat) :
  lock_record (_document_id self) s = Some (None, Some (depth 1)) →
  ∃ s1 s2 s3,
    acquire_times (kind := DocumentRLock) self (S k) s = (Ok true, s1) ∧
    release_times (kind := DocumentRLock) self (S k) s1 = (Ok tt, s2) ∧
    lock_record (_document_id self) s2 = Some (Some (me self), Some (depth 1)) ∧
    DocumentRLock_release self s2 = (Ok tt, s3).
Proof.
  intros Hrec.
  destruct (acquire_times_ok self k s None _ 1 Hrec) as (s1 & Hacq & Hrec1);
    [by left|by right|].
  destruct (release_times_partial self (S k) s1 1 Hrec1) as (s2 & Hrel & Hrec2); [lia|].
  destruct (DocumentRLock_release_full self s2 Hrec2) as (s3 & Hlast & _).
  by exists s1, s2, s3.
Qed.

Lemma round_trip_after_a_cycle_witness :
  lock_record "abc123" after_first_cycle = Some (None, Some (depth 1)) ∧
  ∃ s1 s2 s3,
    acquire_times (kind := DocumentRLock) lock_3 1 after_first_cycle = (Ok true, s1) ∧
    release_times (kind := DocumentRLock) lock_3 1 s1 = (Ok tt, s2) ∧
    lock_record "abc123" s2 = Some (Some (me lock_3), Some (depth 1)) ∧
    DocumentRLock_release lock_3 s2 = (Ok tt, s3).
Proof.
  split; [reflexivity|].
  apply (round_trip_after_a_cycle_stays_locked lock_3 after_first_cycle 0). reflexivity.
Defined.

(** C3, where the code departs from it. The full release (owner matches,
    counter is 1) is one [find_and_modify] whose update unsets the lock
    field and a field named [lock_level]; the counter field is not among
    them. So the counter is still 1 after the full release, and the first
    acquisition of the next cycle brings it to 2. *)
Theorem full_release_keeps_the_counter (self : lock) (s : store) :
  lock_record (_document_id self) s = Some (Some (me self), Some (depth 1)) →
  ∃ s1 s2,
    DocumentRLock_release self s = (Ok tt, s1) ∧
    log s1 = log s ++ [FindAndModify
                         (Query (_document_id self)
                                [FieldIs LOCK_ID_FIELD (SUuid (_lock_id self));
                                 FieldIs LOCK_COUNTER_FIELD (SInt 1)])
                         [Unset (Top LOCK_ID_FIELD); Unset (Top "lock_level")]] ∧
    lock_record (_document_id self) s1 = Some (None, Some (depth 1)) ∧
    DocumentRLock_acquire self s1 = (Ok true, s2) ∧
    lock_record (_document_id self) s2 = Some (Some (me self), Some (depth 2)).
Proof.
  intros Hrec.
  destruct (DocumentRLock_release_full self s Hrec) as (s1 & Hrel & Hrec1 & Hlog).
  destruct (DocumentRLock_acquire_ok self s1 None _ 1 Hrec1) as (s2 & Hacq & Hrec2);
    [by left|by right|].
  by exists s1, s2.
Qed.

Lemma full_release_keeps_the_counter_witness :
  lock_record "abc123" acquired_once = Some (Some (me lock_3), Some (depth 1)) ∧
  ∃ s1 s2,
    DocumentRLock_release lock_3 acquired_once = (Ok tt, s1) ∧
    log s1 = log acquired_once ++
             [FindAndModify
                (Query "abc123" [FieldIs LOCK_ID_FIELD (SUuid 3);
                                 FieldIs LOCK_COUNTER_FIELD (SInt 1)])
                [Unset (Top LOCK_ID_FIELD); Unset (Top "lock_level")]] ∧
    lock_record "abc123" s1 = Some (None, Some (depth 1)) ∧
    DocumentRLock_acquire lock_3 s1 = (Ok true, s2) ∧
    lock_record "abc123" s2 = Some (Some (me lock_3), Some (depth 2)).
Proof.
  split; [reflexivity|].
  apply (full_release_keeps_the_counter lock_3 acquired_once). reflexivity.
Defined.

(** The first two cycles on a fresh document, evaluated. *)
Example two_cycles_on_a_fresh_document :
  field LOCK_COUNTER_FIELD "abc123" after_first_cycle = Some (depth 1) ∧
  field LOCK_ID_FIELD "abc123" after_first_cycle = None ∧
  let s1 := (DocumentRLock_acquire lock_3 after_first_cycle).2 in
  let r := DocumentRLock_release lock_3 s1 in
  r.1 = Ok tt ∧
  field LOCK_ID_FIELD "abc123" r.2 = Some (me lock_3) ∧
  (DocumentRLock_release lock_3 r.2).1 = Ok tt.
Proof. repeat split; by vm_compute. Qed.

End ReentrantLockProperties.

(** ** The instance registry of a job *)

Module RegistryProperties.

Import Job Observe Sample MongoFacts.

Section Registry.

Variable PYMONGO_3 : bool.

Lemma _add_instance_appends self s d l :
  docs s !! _id self = Some d → executing d = Some l →
  _add_instance self s
  = (Ok tt,
     Store (<[_id self := <["executing" := VArr (l ++ [instance self])]> d]> (docs s))
           (log s ++ [UpdateOne (_filter self)
                                (Mapping [Push "executing" (instance self)])])).
Proof.
  intros Hd Hl. unfold _add_instance. fold (instance self).
  rewrite (update_one_hit (_filter self) [Push "executing" (instance self)] false s d
             (<["executing" := VArr (l ++ [instance self])]> d)); [done|done|done|].
  simpl. unfold executing in Hl.
  destruct (d !! "executing") as [[| |l']|]; simplify_eq; done.
Qed.

(** [_remove_instance] pulls every occurrence of the instance id and
    returns how many entries are left. *)
Lemma _remove_instance_pulls_all self s d l :
  docs s !! _id self = Some d → d !! "executing" = Some (VArr l) →
  _remove_instance PYMONGO_3 self s
  = (Ok (length (filter (λ x, x ≠ instance self) l)),
     Store (<[_id self :=
                <["executing" := VArr (filter (λ x, x ≠ instance self) l)]> d]> (docs s))
           (log s ++ [pull_call PYMONGO_3 self])).
Proof.
  intros Hd Hl. unfold _remove_instance, bind.
  assert (apply_update [Pull "executing" (instance self)] d
          = Some (<["executing" := VArr (filter (λ x, x ≠ instance self) l)]> d)) as Hu.
  { simpl. by rewrite Hl. }
  unfold pull_call. destruct PYMONGO_3.
  - erewrite find_one_and_update_hit by done. by rewrite lookup_insert_eq.
  - erewrite find_and_modify_hit by done. by rewrite lookup_insert_eq.
Qed.

Lemma filter_other (x : elem) (l : list elem) :
  x ∉ l → filter (λ y, y ≠ x) l = l.
Proof.
  induction l as [|y l IH]; [done|]. intros Hx.
  apply not_elem_of_cons in Hx as [Hne Hx].
  rewrite filter_cons_True by done. by rewrite IH.
Qed.

Lemma filter_self (x : elem) : filter (λ y, y ≠ x) [x] = [].
Proof. by rewrite filter_cons_False by (intros H; by apply H). Qed.

(** C9, as the code has it. On a job document whose [executing] field is
    absent or a list, [_add_instance] appends the instance id, and the
    [_remove_instance] that follows pulls every occurrence of that id and
    returns the length of what is left. When the list did not hold this
    instance id before (other ids may be there, some more than once),
    that is exactly one less than the length after the add, and the list
    is the one before the add. *)
Theorem add_then_remove_drops_one (self : job) (s : store) (d : document) (l : list elem) :
  docs s !! _id self = Some d →
  executing d = Some l →
  ∃ s1 s2 d1 d2,
    _add_instance self s = (Ok tt, s1) ∧
    docs s1 !! _id self = Some d1 ∧ executing d1 = Some (l ++ [instance self]) ∧
    _remove_instance PYMONGO_3 self s1
    = (Ok (length (filter (λ x, x ≠ instance self) l)), s2) ∧
    docs s2 !! _id self = Some d2 ∧
    executing d2 = Some (filter (λ x, x ≠ instance self) l) ∧
    (instance self ∉ l →
       length (filter (λ x, x ≠ instance self) l)
       = (length (l ++ [instance self]) - 1)%nat ∧
       filter (λ x, x ≠ instance self) l = l).
Proof.
  intros Hd Hl.
  pose proof (_add_instance_appends self s d l Hd Hl) as Hadd.
  set (d1 := <["executing" := VArr (l ++ [instance self])]> d) in *.
  set (s1 := Store (<[_id self := d1]> (docs s)) _) in Hadd.
  assert (docs s1 !! _id self = Some d1) as Hd1 by apply lookup_insert_eq.
  assert (d1 !! "executing" = Some (VArr (l ++ [instance self]))) as Hl1
    by apply lookup_insert_eq.
  pose proof (_remove_instance_pulls_all self s1 d1 _ Hd1 Hl1) as Hrem.
  rewrite filter_app, filter_self, app_nil_r in Hrem.
  eexists s1, _, d1, _. split; [done|]. split; [done|].
  split; [by unfold executing; rewrite Hl1|].
  split; [exact Hrem|]. split; [apply lookup_insert_eq|].
  split; [unfold executing; by rewrite lookup_insert_eq|].
  intros Hfresh. rewrite filter_other by done.
  split; [|done]. rewrite length_app. simpl. lia.
Qed.

End Registry.

Lemma add_then_remove_drops_one_witness :
  docs open_with_others !! "abc123" = Some doc_with_others ∧
  executing doc_with_others = Some others ∧
  ∃ s1 s2 d1 d2,
    _add_instance job_9 open_with_others = (Ok tt, s1) ∧
    docs s1 !! "abc123" = Some d1 ∧
    executing d1 = Some (others ++ [instance job_9]) ∧
    _remove_instance true job_9 s1
    = (Ok (length (filter (λ x, x ≠ instance job_9) others)), s2) ∧
    docs s2 !! "abc123" = Some d2 ∧
    executing d2 = Some (filter (λ x, x ≠ instance job_9) others) ∧
    (instance job_9 ∉ others →
       length (filter (λ x, x ≠ instance job_9) others)
       = (length (others ++ [instance job_9]) - 1)%nat ∧
       filter (λ x, x ≠ instance job_9) others = others).
Proof.
  split; [reflexivity|]. split; [reflexivity|].
  apply (add_then_remove_drops_one true job_9 open_with_others doc_with_others others);
    reflexivity.
Defined.

(** The instance "i-9" is not among the others, and the remove after its
    add returns 4, one less than the 5 entries after the add. *)
Example add_then_remove_among_others :
  (instance job_9 ∉ others) ∧
  (_remove_instance true job_9 (_add_instance job_9 open_with_others).2).1 = Ok 4%nat.
Proof.
  split; [|by vm_compute].
  unfold instance, others. simpl. rewrite !not_elem_of_cons.
  repeat split; try discriminate. apply not_elem_of_nil.
Qed.

(** C9 as stated fails on a document that already lists this instance:
    the add makes the list two long, and the remove pulls both entries
    and returns 0, two less. *)
Lemma add_then_remove_drops_two :
  let s1 := (_add_instance job_1 listed_twice).2 in
  field "executing" "abc123" s1
  = Some (VArr [EScalar (SStr "i-1"); EScalar (SStr "i-1")]) ∧
  (_remove_instance true job_1 s1).1 = Ok 0%nat ∧
  (_remove_instance false job_1 s1).1 = Ok 0%nat ∧
  0%nat ≠ (length [EScalar (SStr "i-1"); EScalar (SStr "i-1")] - 1)%nat.
Proof. repeat split; by vm_compute. Qed.

(** C10. When the collection has no document for the job,
    [num_open_instances] is one [find_one] that returns 0, and
    [is_exclusive_instance] returns [True]. *)
Theorem no_document_no_open_instances (self : job) (s : store) :
  docs s !! _id self = None →
  num_open_instances self s = (Ok 0%nat, logged (FindOne (_filter self)) s) ∧
  is_exclusive_instance self s = (Ok true, logged (FindOne (_filter self)) s).
Proof.
  intros Hd. unfold is_exclusive_instance, num_open_instances, _open_instances,
    find_one, bind, emit. simpl. by rewrite Hd.
Qed.

Lemma no_document_no_open_instances_witness :
  docs empty !! "abc123" = None ∧
  num_open_instances job_1 empty = (Ok 0%nat, Store ∅ [FindOne (Query "abc123" [])]) ∧
  is_exclusive_instance job_1 empty = (Ok true, Store ∅ [FindOne (Query "abc123" [])]).
Proof.
  split; [reflexivity|].
  apply (no_document_no_open_instances job_1 empty). reflexivity.
Defined.

End RegistryProperties.

(** ** Heartbeat and closing a job *)

Module LifecycleFacts.

Import Concurrency Job Observe MongoFacts LockFacts.

Lemma bind_ok {A B} (c : M A) (k : A → M B) s a s' :
  c s = (Ok a, s') → bind c k s = k a s'.
Proof. unfold bind. by intros ->. Qed.

(** The thread lock accepts the arguments [acquire] lets through, unless
    the timeout is negative and not [-1]. *)
Lemma Lock_acquire_in_range (TIMEOUT_MAX : Z) (blocking : bool) (timeout : Z) s :
  (blocking = false → timeout = -1) → -1 ≤ timeout → timeout ≤ TIMEOUT_MAX →
  Lock_acquire TIMEOUT_MAX blocking timeout s = (Ok true, s).
Proof.
  intros Hb Hlo Hhi. unfold Lock_acquire.
  assert ((timeout >? TIMEOUT_MAX) = false) as -> by lia.
  destruct blocking; simpl.
  - destruct (Z.ltb_spec timeout 0), (Z.eqb_spec timeout (-1)); simpl; try done; lia.
  - rewrite Hb by done. done.
Qed.

Lemma acquire_blocking_in_range {kind : LockKind} (TIMEOUT_MAX : Z) (self : lock)
    (timeout : Z) (attempts late : nat) s :
  -1 ≤ timeout → timeout ≤ TIMEOUT_MAX →
  acquire TIMEOUT_MAX self true timeout attempts late s
  = (let! r := try_to_acquire self attempts in
     match r with
     | Some _ => ret true
     | None =>
         if timeout =? -1 then (λ s, (OutOfFuel, s))
         else (run! try_to_acquire self late in ret false)
     end) s.
Proof.
  intros Hlo Hhi. unfold acquire. cbn [negb andb].
  assert ((timeout >? TIMEOUT_MAX) = false) as -> by lia.
  unfold acquire_timeout.
  erewrite bind_ok; [reflexivity|]. by apply Lock_acquire_in_range.
Qed.

Lemma acquire_nonblocking {kind : LockKind} (TIMEOUT_MAX : Z) (self : lock)
    (attempts late : nat) s :
  -1 ≤ TIMEOUT_MAX →
  acquire TIMEOUT_MAX self false (-1) attempts late s = _acquire self s.
Proof.
  intros Hmax. unfold acquire. cbn [negb andb Z.eqb Pos.eqb].
  assert ((-1 >? TIMEOUT_MAX) = false) as -> by lia.
  unfold acquire_timeout.
  erewrite bind_ok; [reflexivity|]. by apply Lock_acquire_in_range.
Qed.

Lemma update_one_at id u d d' (m : gmap string document) l :
  apply_update u d = Some d' →
  update_one (Query id []) (Mapping u) false (Store (<[id := d]> m) l)
  = (Ok tt, Store (<[id := d']> m) (l ++ [UpdateOne (Query id []) (Mapping u)])).
Proof.
  intros Hu.
  rewrite (update_one_hit (Query id []) u false _ d d'); [|by apply lookup_insert_eq|done|done].
  simpl. by rewrite insert_insert_eq.
Qed.

Lemma DocumentLock_acquire_at self d (m : gmap string document) l :
  d !! LOCK_ID_FIELD = None →
  DocumentLock_acquire self (Store (<[_document_id self := d]> m) l)
  = (Ok true,
     Store (<[_document_id self := <[LOCK_ID_FIELD := VScalar (SUuid (_lock_id self))]> d]> m)
           (l ++ [FindAndModify (DocumentLock_acquire_query self)
                                (DocumentLock_acquire_update self)])).
Proof.
  intros Hfree. unfold DocumentLock_acquire, bind.
  rewrite (find_and_modify_hit _ _ false _ d
             (<[LOCK_ID_FIELD := VScalar (SUuid (_lock_id self))]> d));
    [|by apply lookup_insert_eq| |done].
  - simpl. by rewrite insert_insert_eq.
  - unfold matches. simpl. by rewrite Hfree.
Qed.


Section CloseStageOne.

Variable PYMONGO_3 : bool.

Lemma _stop_pulse_at self d (m : gmap string document) l :
  _pulse self = Some tt →
  ∃ d',
    _stop_pulse self true (Store (<[_id self := d]> m) l)
    = (Ok (set_pulse None self),
       Store (<[_id self := d']> m)
             (l ++ [UpdateOne (_filter self)
                              (Mapping [Unset (Dot "pulse" (_unique_id self))])])) ∧
    heartbeat (_unique_id self) d' = None ∧
    ∀ f, f ≠ "pulse" → d' !! f = d !! f.
Proof.
  intros Hp. unfold _stop_pulse. rewrite Hp. cbn [negb]. cbv beta iota.
  unfold bind, _filter. cbv beta.
  destruct (d !! "pulse") as [[s|p|a]|] eqn:Hpulse.
  1,3,4: exists d; rewrite (update_one_at _ _ d d) by (simpl; by rewrite Hpulse);
         unfold heartbeat; rewrite Hpulse; done.
  exists (<["pulse" := VSub (delete (_unique_id self) p)]> d).
  rewrite (update_one_at _ _ d (<["pulse" := VSub (delete (_unique_id self) p)]> d))
    by (simpl; by rewrite Hpulse).
  split; [done|]. split.
  - unfold heartbeat. rewrite lookup_insert_eq. apply lookup_delete_eq.
  - intros f Hf. by rewrite lookup_insert_ne.
Qed.



End CloseStageOne.

End LifecycleFacts.

Module LifecycleProperties.

Import Concurrency Job Observe Sample MongoFacts LockFacts LifecycleFacts.

Section Close.

Variable JOB_PARAMETERS_KEY : string.
Variable PYMONGO_3 : bool.
Variable TIMEOUT_MAX : Z.

(** Entering the lock of a job whose document is free: one successful
    attempt. *)
Lemma enter_free_lock (l : lock) d (m : gmap string document) (log : list call) (n late : nat) :
  Concurrency._blocking l = true →
  -1 ≤ Concurrency._timeout l → Concurrency._timeout l ≤ TIMEOUT_MAX →
  d !! LOCK_ID_FIELD = None →
  Concurrency.__enter__ TIMEOUT_MAX (kind := DocumentLock) l (S n) late
    (Store (<[_document_id l := d]> m) log)
  = (Ok tt,
     Store (<[_document_id l := <[LOCK_ID_FIELD := VScalar (SUuid (_lock_id l))]> d]> m)
           (log ++ [FindAndModify (DocumentLock_acquire_query l)
                                  (DocumentLock_acquire_update l)])).
Proof.
  intros Hb Hlo Ht Hfree. unfold Concurrency.__enter__. rewrite Hb.
  erewrite (bind_ok _ _ _ true); [reflexivity|].
  rewrite acquire_blocking_in_range by done.
  erewrite (bind_ok _ _ _ (Some true)); [reflexivity|].
  simpl try_to_acquire. simpl _acquire.
  by rewrite DocumentLock_acquire_at.
Qed.



End Close.




End LifecycleProperties.

(** ** The blocking acquisition and its retry thread *)

Module SchedulerProperties.

Import Concurrency Observe Sample Scheduler.

Section Blocking.

Context {kind : LockKind}.
Variable self : lock.
Variable timeout : Z.

#[local] Abbreviation step := (Scheduler.step self timeout).
#[local] Abbreviation run := (Scheduler.run self timeout).

Lemma retry_step_ended st :
  alive (retry st) = false → retry_step self st = st.
Proof. unfold retry_step. by destruct (retry st). Qed.

Lemma retry_step_caller st : caller (retry_step self st) = caller st.
Proof.
  unfold retry_step. destruct (retry st); try done.
  by destruct (_acquire self (shared st)) as [[[|]|?|] ?].
Qed.

Lemma retry_step_stop_event st : stop_event (retry_step self st) = stop_event st.
Proof.
  unfold retry_step. destruct (retry st); try done.
  by destruct (_acquire self (shared st)) as [[[|]|?|] ?].
Qed.

Lemma retry_step_stays_ended st :
  alive (retry st) = false → alive (retry (retry_step self st)) = false.
Proof. intros H. by rewrite retry_step_ended. Qed.

Lemma step_joined_before_return st a :
  joined_before_return st → joined_before_return (step st a).
Proof.
  unfold joined_before_return. destruct a as [|elapsed|d]; simpl.
  - rewrite retry_step_caller, retry_step_stop_event.
    destruct (caller st) as [| | | |[|]]; try done.
    + apply retry_step_stays_ended.
    + intros [? ?]. split; [done|]. by apply retry_step_stays_ended.
  - unfold caller_step. destruct (caller st) as [| | | |[|]] eqn:Hc; simpl; try done.
    + by destruct (negb (alive (retry st)) || elapsed && negb (timeout =? -1)); simpl; rewrite ?Hc.
    + by destruct (alive (retry st)) eqn:Ha.
    + intros Hstop. destruct (alive (retry st)) eqn:Ha; simpl; by rewrite ?Hc.
    + by rewrite Hc.
    + by rewrite Hc.
  - by destruct (caller st) as [| | | |[|]].
Qed.

Lemma run_joined_before_return schedule : ∀ st,
  joined_before_return st → joined_before_return (run st schedule).
Proof.
  induction schedule as [|a schedule IH]; intros st Hst; [done|].
  simpl. apply IH. by apply step_joined_before_return.
Qed.

(** Once the retry thread has ended it makes no store call and stays
    ended, whatever is scheduled. *)
Lemma run_after_end schedule : ∀ st,
  alive (retry st) = false →
  log (shared (run st schedule)) = log (shared st) ∧
  retry (run st schedule) = retry st.
Proof.
  induction schedule as [|a schedule IH]; intros st Hst; [done|].
  simpl. destruct a as [|elapsed|d].
  - simpl. rewrite retry_step_ended by done. by apply IH.
  - assert (retry (caller_step timeout elapsed st) = retry st ∧
            shared (caller_step timeout elapsed st) = shared st) as [Hr Hs].
    { unfold caller_step. destruct (caller st); simpl; try done.
      - by destruct (negb (alive (retry st)) || elapsed && negb (timeout =? -1)).
      - by destruct (alive (retry st)). }
    destruct (IH (caller_step timeout elapsed st)) as [Hlog Hretry]; [by rewrite Hr|].
    simpl. by rewrite Hlog, Hretry, Hr, Hs.
  - destruct (IH (State (caller st) (retry st) (stop_event st) (Store d (log (shared st)))))
      as [Hlog Hretry]; [done|].
    simpl. by rewrite Hlog, Hretry.
Qed.

(** C5. In every interleaving of a blocking [acquire] with its retry
    thread and with other processes: when [acquire] has returned [False],
    it has set [stop_event], the retry thread has ended, and from then on
    the log of this lock's store calls never grows and the thread never
    moves again. *)
Theorem timed_out_acquire_leaves_no_retry
    (s : store) (schedule more : list action) :
  caller (run (started s) schedule) = Returned false →
  stop_event (run (started s) schedule) = true ∧
  alive (retry (run (started s) schedule)) = false ∧
  log (shared (run (run (started s) schedule) more))
  = log (shared (run (started s) schedule)) ∧
  retry (run (run (started s) schedule) more) = retry (run (started s) schedule).
Proof.
  intros Hret.
  assert (joined_before_return (run (started s) schedule)) as Hinv
    by (by apply run_joined_before_return).
  unfold joined_before_return in Hinv. rewrite Hret in Hinv.
  destruct Hinv as [Hstop Hended].
  split; [done|]. split; [done|]. by apply run_after_end.
Qed.

Lemma step_stop_event_stays st a :
  stop_event st = true → stop_event (step st a) = true.
Proof.
  intros Hstop. destruct a as [|elapsed|d]; simpl; [by rewrite retry_step_stop_event| |done].
  unfold caller_step. destruct (caller st); simpl; try done.
  - by destruct (negb (alive (retry st)) || elapsed && negb (timeout =? -1)).
  - by destruct (alive (retry st)).
Qed.

Lemma step_moves_left st a :
  stop_event st = true →
  (moves_left (retry (step st a))
   ≤ moves_left (retry st) - (if decide (a = Retry) then 1 else 0))%nat.
Proof.
  intros Hstop. destruct a as [|elapsed|d]; simpl.
  - unfold retry_step. destruct (retry st) eqn:Hr; simpl; rewrite ?Hr; simpl; try lia.
    + rewrite Hstop. simpl. lia.
    + destruct (_acquire self (shared st)) as [[[|]|?|] ?]; simpl; lia.
  - unfold caller_step. destruct (caller st); simpl; try lia.
    + destruct (negb (alive (retry st)) || elapsed && negb (timeout =? -1)); simpl; lia.
    + destruct (alive (retry st)); simpl; lia.
  - lia.
Qed.

Lemma run_moves_left schedule : ∀ st,
  stop_event st = true →
  (moves_left (retry (run st schedule)) ≤ moves_left (retry st) - retry_moves schedule)%nat.
Proof.
  induction schedule as [|a schedule IH]; intros st Hstop;
    [unfold retry_moves; simpl; lia|].
  simpl. specialize (IH (step st a) (step_stop_event_stays st a Hstop)).
  pose proof (step_moves_left st a Hstop) as Hstep.
  unfold retry_moves in *. destruct (decide (a = Retry)) as [->|Hne].
  - rewrite filter_cons_True by done. simpl length. simpl in *. lia.
  - rewrite filter_cons_False by done. simpl in *. lia.
Qed.

Lemma run_returned schedule : ∀ st b,
  caller st = Returned b → caller (run st schedule) = Returned b.
Proof.
  induction schedule as [|a schedule IH]; intros st b Hc; [done|].
  simpl. apply IH. destruct a; simpl; [by rewrite retry_step_caller| |done].
  unfold caller_step. by rewrite Hc.
Qed.

Lemma run_final_join schedule : ∀ st,
  caller st = JoiningForGood →
  caller (run st schedule) = JoiningForGood ∨ caller (run st schedule) = Returned false.
Proof.
  induction schedule as [|a schedule IH]; intros st Hc; [by left|].
  simpl. destruct a as [|elapsed|d].
  - apply IH. simpl. by rewrite retry_step_caller.
  - simpl. unfold caller_step. rewrite Hc.
    destruct (alive (retry st)); [by apply IH|].
    right. by apply run_returned.
  - by apply IH.
Qed.

(** The final join returns: once [stop_event] is set, the retry thread
    has ended after three of its own moves at most, whatever the caller
    and the other processes do in between; the caller's next move then
    returns [False]. *)
Theorem cancelled_retry_thread_ends (st : state) (schedule : list action) :
  stop_event st = true → caller st = JoiningForGood →
  (3 ≤ retry_moves schedule)%nat →
  alive (retry (run st schedule)) = false ∧
  caller (run st (schedule ++ [Caller false])) = Returned false.
Proof.
  intros Hstop Hcaller Hmoves.
  pose proof (run_moves_left schedule st Hstop) as Hleft.
  assert (alive (retry (run st schedule)) = false) as Hended.
  { destruct (retry (run st schedule)), (retry st); simpl in *; done || lia. }
  split; [done|].
  unfold Scheduler.run. rewrite foldl_app. simpl. fold (run st schedule).
  unfold caller_step.
  destruct (run_final_join schedule st Hcaller) as [Hc|Hc]; rewrite Hc; [|done].
  by rewrite Hended.
Qed.

End Blocking.

Lemma timed_out_acquire_witness :
  caller (Scheduler.run (kind := DocumentLock) lock_3 2 (started locked_by_7) timed_out)
  = Returned false ∧
  stop_event (Scheduler.run (kind := DocumentLock) lock_3 2 (started locked_by_7) timed_out)
  = true ∧
  alive (retry (Scheduler.run (kind := DocumentLock) lock_3 2
                  (started locked_by_7) timed_out)) = false ∧
  log (shared (Scheduler.run (kind := DocumentLock) lock_3 2
                 (Scheduler.run (kind := DocumentLock) lock_3 2
                                (started locked_by_7) timed_out)
                 [Retry; Others ∅; Retry; Caller true; Retry]))
  = log (shared (Scheduler.run (kind := DocumentLock) lock_3 2
                   (started locked_by_7) timed_out)) ∧
  retry (Scheduler.run (kind := DocumentLock) lock_3 2
           (Scheduler.run (kind := DocumentLock) lock_3 2 (started locked_by_7) timed_out)
           [Retry; Others ∅; Retry; Caller true; Retry])
  = retry (Scheduler.run (kind := DocumentLock) lock_3 2 (started locked_by_7) timed_out).
Proof.
  split; [reflexivity|].
  apply (timed_out_acquire_leaves_no_retry (kind := DocumentLock) lock_3 2
           locked_by_7 timed_out [Retry; Others ∅; Retry; Caller true; Retry]).
  reflexivity.
Defined.

Lemma cancelled_retry_thread_witness :
  (3 ≤ retry_moves [Retry; Others ∅; Retry; Caller false; Retry])%nat ∧
  alive (retry (Scheduler.run (kind := DocumentLock) lock_3 2
                  (State JoiningForGood Attempting true locked_by_7)
                  [Retry; Others ∅; Retry; Caller false; Retry])) = false ∧
  caller (Scheduler.run (kind := DocumentLock) lock_3 2
            (State JoiningForGood Attempting true locked_by_7)
            ([Retry; Others ∅; Retry; Caller false; Retry] ++ [Caller false]))
  = Returned false.
Proof.
  assert (3 ≤ retry_moves [Retry; Others ∅; Retry; Caller false; Retry])%nat as Hmoves
    by (vm_compute; lia).
  split; [exact Hmoves|].
  apply (cancelled_retry_thread_ends (kind := DocumentLock) lock_3 2
           (State JoiningForGood Attempting true locked_by_7)
           [Retry; Others ∅; Retry; Caller false; Retry]);
    [reflexivity|reflexivity|exact Hmoves].
Defined.

End SchedulerProperties.

Module HeartbeatProperties.

Import Job Observe Sample MongoFacts LifecycleFacts.

(** C6, where the code departs from it. Whenever a period elapses
    without the stop signal, the worker hands pymongo a tuple (the
    [update] it builds ends in a comma) where a mapping is required: the
    call raises [TypeError], the worker ends with that exception, and no
    document is written. No heartbeat is ever recorded. *)
Theorem pulse_worker_never_beats
    (job_id unique_id : string) (now : Z) (later : list Z) (s : store) :
  pulse_worker job_id unique_id (now :: later) s
  = (Raise TypeError,
     Store (docs s)
           (log s ++ [UpdateOne (Query job_id [])
                                (Tuple1 [Set_ (Dot "pulse" unique_id) (SDate now)])])).
Proof. unfold pulse_worker, bind. by rewrite update_one_tuple. Qed.

(** However long the worker runs, the documents stay as they were. *)
Lemma pulse_worker_keeps_documents job_id unique_id ticks s :
  docs (pulse_worker job_id unique_id ticks s).2 = docs s.
Proof. by destruct ticks. Qed.

(** Had the update been the mapping itself, a beat on an existing job
    document would have recorded the time under [pulse.unique_id]. *)
Lemma mapping_would_beat job_id unique_id now s d :
  docs s !! job_id = Some d →
  (d !! "pulse" = None ∨ ∃ p, d !! "pulse" = Some (VSub p)) →
  ∃ d',
    update_one (Query job_id []) (Mapping [Set_ (Dot "pulse" unique_id) (SDate now)]) true s
    = (Ok tt,
       Store (<[job_id := d']> (docs s))
             (log s ++ [UpdateOne (Query job_id [])
                                  (Mapping [Set_ (Dot "pulse" unique_id) (SDate now)])])) ∧
    heartbeat unique_id d' = Some (SDate now).
Proof.
  intros Hd [Hnone|[p Hp]].
  - exists (<["pulse" := VSub {[unique_id := SDate now]}]> d). split.
    + rewrite (update_one_hit (Query job_id []) _ true s d
                 (<["pulse" := VSub {[unique_id := SDate now]}]> d)); [done|done|done|].
      simpl. by rewrite Hnone.
    + unfold heartbeat. rewrite lookup_insert_eq. apply lookup_singleton_eq.
  - exists (<["pulse" := VSub (<[unique_id := SDate now]> p)]> d). split.
    + rewrite (update_one_hit (Query job_id []) _ true s d
                 (<["pulse" := VSub (<[unique_id := SDate now]> p)]> d)); [done|done|done|].
      simpl. by rewrite Hp.
    + unfold heartbeat. rewrite lookup_insert_eq. apply lookup_insert_eq.
Qed.

(** Stopping: when the worker has ended by the time the join of
    [2 * PULSE_PERIOD] returns, [_stop_pulse] makes one update that
    removes [pulse.unique_id] and forgets the worker; when it has not,
    the assertion fails before the store is touched. *)
Theorem stop_pulse_removes_the_entry (self : job) (s : store) (d : document) :
  _pulse self = Some tt → docs s !! _id self = Some d →
  (∃ d',
     _stop_pulse self true s
     = (Ok (set_pulse None self),
        Store (<[_id self := d']> (docs s))
              (log s ++ [UpdateOne (_filter self)
                                   (Mapping [Unset (Dot "pulse" (_unique_id self))])])) ∧
     heartbeat (_unique_id self) d' = None ∧
     ∀ f, f ≠ "pulse" → d' !! f = d !! f) ∧
  _stop_pulse self false s = (Raise AssertionError, s).
Proof.
  intros Hp Hd. split.
  - destruct s as [m l]. simpl in *.
    destruct (_stop_pulse_at self d m l Hp) as (d' & Hstop & Hbeat & Hframe).
    exists d'. rewrite insert_id in Hstop by done. by rewrite Hstop.
  - unfold _stop_pulse. by rewrite Hp.
Qed.

Lemma stop_pulse_witness :
  _pulse job_1 = Some tt ∧
  docs open_with_others !! "abc123" = Some doc_with_others ∧
  heartbeat "i-1" doc_with_others = Some (SDate 1000) ∧
  (∃ d',
     _stop_pulse job_1 true open_with_others
     = (Ok (set_pulse None job_1),
        Store (<["abc123" := d']> (docs open_with_others))
              (log open_with_others
               ++ [UpdateOne (Query "abc123" []) (Mapping [Unset (Dot "pulse" "i-1")])])) ∧
     heartbeat "i-1" d' = None ∧
     ∀ f, f ≠ "pulse" → d' !! f = doc_with_others !! f) ∧
  _stop_pulse job_1 false open_with_others = (Raise AssertionError, open_with_others).
Proof.
  split; [reflexivity|]. split; [reflexivity|]. split; [reflexivity|].
  apply (stop_pulse_removes_the_entry job_1 open_with_others doc_with_others);
    reflexivity.
Defined.

End HeartbeatProperties.

Module Scenarios.

Import Concurrency Job Observe Sample Scheduler.

(** A second instance opens the job next to the others and fails in its
    scope: after [__exit__] the list of open instances is as before, the
    error is on record as one string, and the lock is free again. *)
Example open_then_fail :
  ∃ j s1 s2,
    open "parameters" 100000 job_9 "/home" 4 1 0 open_with_others = (Ok j, s1) ∧
    _cwd j = Some "/home" ∧ _pulse j = Some tt ∧
    field "executing" "abc123" s1 = Some (VArr (others ++ [EScalar (SStr "i-9")])) ∧
    __exit__ "parameters" true 100000 j (Some boom) 5 1 0 true s1
    = (Ok (Some false, job_9), s2) ∧
    field "executing" "abc123" s2 = Some (VArr others) ∧
    field JOB_ERROR_KEY "abc123" s2
    = Some (VArr [EScalar (SStr "<class 'ValueError'>:boom")]) ∧
    field LOCK_ID_FIELD "abc123" s2 = None.
Proof.
  eexists _, _, _. split; [by vm_compute|].
  split; [done|]. split; [done|]. split; [by vm_compute|].
  split; [by vm_compute|]. split; by vm_compute.
Qed.

End Scenarios.

(** ** What [acquire] returns, and the scope of a lock *)

Module AcquisitionProperties.

Import Concurrency Observe Sample Cases MongoFacts LockFacts LifecycleFacts.

Section Acquire.

Variable TIMEOUT_MAX : Z.

(** A non-blocking [acquire] of a [DocumentLock] is one attempt: it
    returns [True] exactly when the document exists without a lock field,
    and then writes the owner; otherwise it returns [False] and every
    document is as it was. *)
Theorem nonblocking_acquire_is_one_attempt (self : lock) (attempts late : nat) (s : store) :
  -1 ≤ TIMEOUT_MAX →
  acquire TIMEOUT_MAX (kind := DocumentLock) self false (-1) attempts late s
  = (Ok (free_for self s),
     Store (if free_for self s
            then alter (insert LOCK_ID_FIELD (VScalar (SUuid (_lock_id self))))
                       (_document_id self) (docs s)
            else docs s)
           (log s ++ [FindAndModify (DocumentLock_acquire_query self)
                                    (DocumentLock_acquire_update self)])).
Proof.
  intros Hmax. rewrite acquire_nonblocking by done.
  apply DocumentLock_acquire_spec.
Qed.

(** The retry loop on a document that stays locked: [n] attempts, [n]
    store calls, no document changed. *)
Lemma try_to_acquire_held (self : lock) (n : nat) : ∀ s,
  free_for self s = false →
  try_to_acquire (kind := DocumentLock) self n s
  = (Ok None,
     Store (docs s)
           (log s ++ replicate n (FindAndModify (DocumentLock_acquire_query self)
                                                (DocumentLock_acquire_update self)))).
Proof.
  induction n as [|n IH]; intros s Hheld.
  - simpl. unfold ret. rewrite app_nil_r. by destruct s.
  - simpl try_to_acquire. simpl _acquire.
    rewrite DocumentLock_acquire_spec, Hheld.
    rewrite IH by done. simpl. by rewrite <- app_assoc.
Qed.

(** A blocking [acquire] on a document that nobody unlocks in the
    meantime, the timeout being [-1] or not negative. With a timeout it
    returns [False]; every attempt of the retry thread, before the timed
    join is over and after it, is one store call, and no document
    changes. Without a timeout it is still retrying after any number of
    attempts. *)
Theorem blocking_acquire_on_held_lock
    (self : lock) (timeout : Z) (n late : nat) (s : store) :
  free_for self s = false → -1 ≤ timeout → timeout ≤ TIMEOUT_MAX →
  acquire TIMEOUT_MAX (kind := DocumentLock) self true timeout n late s
  = (if timeout =? -1 then OutOfFuel else Ok false,
     Store (docs s)
           (log s ++ replicate (if timeout =? -1 then n else (n + late)%nat)
                               (FindAndModify (DocumentLock_acquire_query self)
                                              (DocumentLock_acquire_update self)))).
Proof.
  intros Hheld Hlo Hmax. rewrite acquire_blocking_in_range by done.
  unfold bind at 1. rewrite try_to_acquire_held by done.
  destruct (timeout =? -1); [done|].
  unfold bind. rewrite try_to_acquire_held by exact Hheld.
  unfold ret. cbn [docs log]. by rewrite replicate_add, app_assoc.
Qed.



End Acquire.

Lemma nonblocking_acquire_witness :
  -1 ≤ 100000 ∧
  acquire 100000 (kind := DocumentLock) lock_3_nonblocking false (-1) 0 0 locked_by_7
  = (Ok (free_for lock_3_nonblocking locked_by_7),
     Store (if free_for lock_3_nonblocking locked_by_7
            then alter (insert LOCK_ID_FIELD (VScalar (SUuid 3))) "abc123" (docs locked_by_7)
            else docs locked_by_7)
           (log locked_by_7
            ++ [FindAndModify (DocumentLock_acquire_query lock_3_nonblocking)
                              (DocumentLock_acquire_update lock_3_nonblocking)])).
Proof.
  split; [lia|].
  apply (nonblocking_acquire_is_one_attempt 100000 lock_3_nonblocking 0 0 locked_by_7). lia.
Defined.

Lemma blocking_acquire_on_held_lock_witness :
  free_for lock_3_patient locked_by_7 = false ∧ -1 ≤ 2 ∧ 2 ≤ 100000 ∧
  acquire 100000 (kind := DocumentLock) lock_3_patient true 2 5 2 locked_by_7
  = (if 2 =? -1 then OutOfFuel else Ok false,
     Store (docs locked_by_7)
           (log locked_by_7
            ++ replicate (if 2 =? -1 then 5 else (5 + 2)%nat)
                         (FindAndModify (DocumentLock_acquire_query lock_3_patient)
                                        (DocumentLock_acquire_update lock_3_patient)))).
Proof.
  split; [reflexivity|]. split; [lia|]. split; [lia|].
  apply (blocking_acquire_on_held_lock 100000 lock_3_patient 2 5 2 locked_by_7);
    [reflexivity|lia|lia].
Defined.



End AcquisitionProperties.

(** ** Forced release *)

Module ForceReleaseProperties.

Import Concurrency Observe Sample Cases MongoFacts LockFacts ReentrantLockFacts.

(** [force_release] is one unconditional [find_and_modify] on the
    document: both lock fields go, whoever owns the lock; a missing
    document stays missing. *)
Lemma force_release_spec (self : lock) (s : store) :
  force_release self s
  = (Ok tt,
     Store (alter (λ d, delete LOCK_COUNTER_FIELD (delete LOCK_ID_FIELD d))
                  (_document_id self) (docs s))
           (log s ++ [FindAndModify (Query (_document_id self) [])
                        [Unset (Top LOCK_ID_FIELD); Unset (Top LOCK_COUNTER_FIELD)]])).
Proof.
  unfold force_release, bind.
  destruct (docs s !! _document_id self) as [d|] eqn:Hd.
  - erewrite find_and_modify_hit by done. unfold ret. simpl. do 2 f_equal.
    apply map_eq. intros i. destruct (decide (i = _document_id self)) as [->|Hne].
    + by rewrite lookup_insert_eq, lookup_alter_eq, Hd.
    + by rewrite lookup_insert_ne, lookup_alter_ne.
  - rewrite find_and_modify_miss by (unfold selects; simpl; by rewrite Hd).
    unfold ret, logged. do 2 f_equal.
    apply map_eq. intros i. destruct (decide (i = _document_id self)) as [->|Hne].
    + by rewrite lookup_alter_eq, Hd.
    + by rewrite lookup_alter_ne.
Qed.

Lemma force_release_empties_the_record (self : lock) (s : store) (d : document) :
  docs s !! _document_id self = Some d →
  ∃ s1, force_release self s = (Ok tt, s1) ∧
        lock_record (_document_id self) s1 = Some (None, None).
Proof.
  intros Hd. eexists. split; [apply force_release_spec|].
  unfold lock_record. simpl. rewrite lookup_alter_eq, Hd. simpl.
  rewrite lookup_delete_ne by done. by rewrite !lookup_delete_eq.
Qed.

(** After [force_release] on an existing document, whatever its lock
    state was: the lock record is empty, every other field is as before,
    any [DocumentLock] on the document acquires at once, and a release by
    a former holder raises [DocumentLockError]. *)
Theorem force_release_frees_any_document (self other : lock) (s : store) (d : document) :
  docs s !! _document_id self = Some d →
  _document_id other = _document_id self →
  ∃ s1,
    force_release self s = (Ok tt, s1) ∧
    lock_record (_document_id self) s1 = Some (None, None) ∧
    (∀ f, f ≠ LOCK_ID_FIELD → f ≠ LOCK_COUNTER_FIELD →
          field f (_document_id self) s1 = field f (_document_id self) s) ∧
    (DocumentLock_acquire other s1).1 = Ok true ∧
    (DocumentLock_release other s1).1 = Raise DocumentLockError.
Proof.
  intros Hd Hsame. eexists. split; [apply force_release_spec|].
  assert (alter (λ d0, delete LOCK_COUNTER_FIELD (delete LOCK_ID_FIELD d0))
                (_document_id self) (docs s) !! _document_id self
          = Some (delete LOCK_COUNTER_FIELD (delete LOCK_ID_FIELD d))) as Hd1
    by (by rewrite lookup_alter_eq, Hd).
  split; [|split; [|split]].
  - unfold lock_record. simpl. rewrite Hd1. simpl.
    rewrite lookup_delete_ne by done. by rewrite !lookup_delete_eq.
  - intros f Hf1 Hf2. unfold field. simpl. rewrite Hd1, Hd. simpl.
    by rewrite !lookup_delete_ne.
  - rewrite DocumentLock_acquire_spec. simpl. f_equal.
    unfold free_for, selects. simpl. rewrite Hsame, Hd1.
    unfold matches. simpl. rewrite lookup_delete_ne by done.
    by rewrite lookup_delete_eq.
  - rewrite DocumentLock_release_spec. simpl.
    assert (held_by other (Store (alter (λ d0, delete LOCK_COUNTER_FIELD (delete LOCK_ID_FIELD d0))
                                        (_document_id self) (docs s))
                                 (log s ++ [FindAndModify (Query (_document_id self) [])
                                              [Unset (Top LOCK_ID_FIELD);
                                               Unset (Top LOCK_COUNTER_FIELD)]]))
            = false) as ->; [|done].
    unfold held_by, selects. simpl. rewrite Hsame, Hd1.
    unfold matches. simpl. rewrite lookup_delete_ne by done.
    by rewrite lookup_delete_eq.
Qed.

Lemma force_release_frees_witness :
  docs locked_deep_by_7 !! "abc123" = Some deep_7 ∧
  ∃ s1,
    force_release lock_3 locked_deep_by_7 = (Ok tt, s1) ∧
    lock_record "abc123" s1 = Some (None, None) ∧
    (∀ f, f ≠ LOCK_ID_FIELD → f ≠ LOCK_COUNTER_FIELD →
          field f "abc123" s1 = field f "abc123" locked_deep_by_7) ∧
    (DocumentLock_acquire (Lock 7 "abc123" true (-1)) s1).1 = Ok true ∧
    (DocumentLock_release (Lock 7 "abc123" true (-1)) s1).1 = Raise DocumentLockError.
Proof.
  split; [reflexivity|].
  apply (force_release_frees_any_document lock_3 (Lock 7 "abc123" true (-1))
           locked_deep_by_7 deep_7); reflexivity.
Defined.

(** [force_release] also drops the counter that a full release leaves
    behind, so the reentrant lock works again afterwards: [k ≥ 1]
    acquisitions and [k] releases by any lock object end unlocked. *)
Theorem force_release_resets_the_reentrant_lock
    (self other : lock) (s : store) (d : document) (k : nat) :
  docs s !! _document_id self = Some d →
  _document_id other = _document_id self →
  ∃ s0 s1 s2,
    force_release self s = (Ok tt, s0) ∧
    acquire_times (kind := DocumentRLock) other (S k) s0 = (Ok true, s1) ∧
    release_times (kind := DocumentRLock) other (S k) s1 = (Ok tt, s2) ∧
    lock_record (_document_id self) s2 = Some (None, Some (depth 1)).
Proof.
  intros Hd Hsame.
  destruct (force_release_empties_the_record self s d Hd) as (s0 & Hforce & Hrec).
  rewrite <- Hsame in Hrec |- *.
  destruct (acquire_times_ok other k s0 None None 0 Hrec) as (s1 & Hacq & Hrec1);
    [by left|by left|].
  destruct (release_times_all other k s1 Hrec1) as (s2 & Hrel & Hrec2).
  by exists s0, s1, s2.
Qed.

Lemma force_release_resets_witness :
  docs after_first_cycle !! "abc123" = Some {[ LOCK_COUNTER_FIELD := depth 1 ]} ∧
  ∃ s0 s1 s2,
    force_release lock_3 after_first_cycle = (Ok tt, s0) ∧
    acquire_times (kind := DocumentRLock) lock_3 2 s0 = (Ok true, s1) ∧
    release_times (kind := DocumentRLock) lock_3 2 s1 = (Ok tt, s2) ∧
    lock_record "abc123" s2 = Some (None, Some (depth 1)).
Proof.
  split; [reflexivity|].
  apply (force_release_resets_the_reentrant_lock lock_3 lock_3 after_first_cycle
           {[ LOCK_COUNTER_FIELD := depth 1 ]} 1); reflexivity.
Defined.

End ForceReleaseProperties.

(** ** The scope of a lock: [with lock: body] *)

Module ScopeProperties.

Import Concurrency Observe Sample Cases MongoFacts LockFacts LifecycleFacts.

Section Scope.

Variable TIMEOUT_MAX : Z.

(** Leaving the scope releases the lock, however the body ends. The lock
    is blocking, its timeout [-1] or not negative, and the first attempt
    of the retry thread is over before the timed join is. On a free
    document the lock is then taken, the body runs on the locked
    document, and if the body left the lock field alone, one release
    follows, whether the body returned or raised; the outcome of the
    scope is the outcome of the body. *)
Theorem scope_releases_on_every_exit {A : Type}
    (self : lock) (n late : nat) (body : M A) (s s2 : store) (d : document) (r : result A) :
  Concurrency._blocking self = true →
  -1 ≤ Concurrency._timeout self → Concurrency._timeout self ≤ TIMEOUT_MAX →
  docs s !! _document_id self = Some d → d !! LOCK_ID_FIELD = None →
  body (Store (<[_document_id self := <[LOCK_ID_FIELD := me self]> d]> (docs s))
              (log s ++ [FindAndModify (DocumentLock_acquire_query self)
                                       (DocumentLock_acquire_update self)]))
  = (r, s2) →
  r ≠ OutOfFuel →
  field LOCK_ID_FIELD (_document_id self) s2 = Some (me self) →
  with_lock TIMEOUT_MAX (kind := DocumentLock) self (S n) late body s
  = (r, Store (alter (delete LOCK_ID_FIELD) (_document_id self) (docs s2))
              (log s2 ++ [FindAndModify (DocumentLock_release_query self)
                                        DocumentLock_release_update])).
Proof.
  intros Hb Hlo Ht Hd Hfree Hbody Hr Hkept.
  assert (held_by self s2 = true) as Hheld.
  { unfold held_by, selects, field in *. simpl.
    destruct (docs s2 !! _document_id self) as [d2|]; [|done]. simpl in Hkept.
    unfold matches. simpl. rewrite Hkept. unfold me. simpl.
    by rewrite bool_decide_eq_true_2. }
  destruct s as [m l]. simpl in *.
  unfold with_lock.
  erewrite bind_ok;
    [|rewrite <- (insert_id m (_document_id self) d Hd) at 1;
      by apply (LifecycleProperties.enter_free_lock TIMEOUT_MAX self d m l n late)].
  unfold finally. fold (me self). rewrite Hbody.
  assert ((run! Concurrency.__exit__ self in ret tt) s2
          = (Ok tt, Store (alter (delete LOCK_ID_FIELD) (_document_id self) (docs s2))
                          (log s2 ++ [FindAndModify (DocumentLock_release_query self)
                                                    DocumentLock_release_update]))) as ->.
  { unfold Concurrency.__exit__, release, bind. simpl _release.
    by rewrite DocumentLock_release_spec, Hheld. }
  by destruct r.
Qed.

(** A scope whose lock is not obtained is never entered: on a document
    that stays locked, a non-blocking lock gives up after one attempt and
    a lock with a timeout that is not negative after the attempts of its
    retry thread; [__enter__] raises [DocumentLockError], the body does
    not run and no document changes. *)
Theorem scope_is_not_entered_when_locked {A : Type}
    (self : lock) (n late : nat) (body : M A) (s : store) :
  free_for self s = false →
  (Concurrency._blocking self = true →
     0 ≤ Concurrency._timeout self ∧ Concurrency._timeout self ≤ TIMEOUT_MAX) →
  (Concurrency._blocking self = false →
     Concurrency._timeout self = -1 ∧ -1 ≤ TIMEOUT_MAX) →
  with_lock TIMEOUT_MAX (kind := DocumentLock) self n late body s
  = (Raise DocumentLockError,
     Store (docs s)
           (log s ++ replicate (if Concurrency._blocking self then (n + late)%nat else 1%nat)
                               (FindAndModify (DocumentLock_acquire_query self)
                                              (DocumentLock_acquire_update self)))).
Proof.
  intros Hheld Hblocking Hnonblocking. unfold with_lock, Concurrency.__enter__.
  unfold bind at 1. unfold bind at 1.
  destruct (Concurrency._blocking self) eqn:Hb.
  - destruct Hblocking as [Hlo Hmax]; [done|].
    rewrite acquire_blocking_in_range by lia.
    unfold bind at 1. rewrite AcquisitionProperties.try_to_acquire_held by done.
    assert ((Concurrency._timeout self =? -1) = false) as -> by lia.
    unfold bind. rewrite AcquisitionProperties.try_to_acquire_held by exact Hheld.
    unfold ret, raise. cbn [docs log]. by rewrite replicate_add, app_assoc.
  - destruct Hnonblocking as [-> Hmax]; [done|].
    rewrite acquire_nonblocking by done. simpl _acquire.
    by rewrite DocumentLock_acquire_spec, Hheld.
Qed.

(** With a timeout, a scope can fail and leave the lock taken. When the
    timed join is over before the first attempt of the retry thread has
    ended, that attempt still takes the free document; [acquire] returns
    [False], [__enter__] raises [DocumentLockError], the body does not
    run, and nothing releases: the document stays locked under the id of
    this lock. *)
Theorem failed_scope_can_leave_the_lock_taken {A : Type}
    (self : lock) (late : nat) (body : M A) (s : store) (d : document) :
  Concurrency._blocking self = true →
  0 ≤ Concurrency._timeout self → Concurrency._timeout self ≤ TIMEOUT_MAX →
  docs s !! _document_id self = Some d → d !! LOCK_ID_FIELD = None →
  with_lock TIMEOUT_MAX (kind := DocumentLock) self 0 (S late) body s
  = (Raise DocumentLockError,
     Store (<[_document_id self := <[LOCK_ID_FIELD := me self]> d]> (docs s))
           (log s ++ [FindAndModify (DocumentLock_acquire_query self)
                                    (DocumentLock_acquire_update self)])).
Proof.
  intros Hb Hlo Hmax Hd Hfree. destruct s as [m l]. simpl in *.
  unfold with_lock, Concurrency.__enter__. rewrite Hb.
  unfold bind at 1. unfold bind at 1.
  rewrite acquire_blocking_in_range by lia.
  unfold bind at 1. cbn [try_to_acquire]. unfold ret at 1.
  assert ((Concurrency._timeout self =? -1) = false) as -> by lia.
  unfold bind. simpl _acquire.
  rewrite <- (insert_id m (_document_id self) d Hd) at 1.
  rewrite DocumentLock_acquire_at by done.
  reflexivity.
Qed.

End Scope.

(** A body that raises inside the scope of lock 3 on a free document. *)
Lemma scope_releases_witness :
  docs fresh !! "abc123" = Some ∅ ∧
  field LOCK_ID_FIELD "abc123" taken_by_3 = Some (me lock_3) ∧
  with_lock 100000 (kind := DocumentLock) lock_3 1 0 (raise (A := unit) KeyError) fresh
  = (Raise KeyError,
     Store (alter (delete LOCK_ID_FIELD) (_document_id lock_3) (docs taken_by_3))
           (log taken_by_3 ++ [FindAndModify (DocumentLock_release_query lock_3)
                                             DocumentLock_release_update])) ∧
  field LOCK_ID_FIELD "abc123"
        (with_lock 100000 (kind := DocumentLock) lock_3 1 0 (raise (A := unit) KeyError) fresh).2
  = None.
Proof.
  split; [reflexivity|]. split; [reflexivity|]. split; [|reflexivity].
  apply (scope_releases_on_every_exit 100000 lock_3 0 0 (raise KeyError) fresh taken_by_3
           ∅ (Raise KeyError)); try reflexivity; try (simpl; lia). discriminate.
Defined.

(** Lock 3 with a timeout of two seconds on a document that lock 7
    holds: two attempts before the timed join is over and one after. *)
Lemma scope_not_entered_witness :
  free_for lock_3_patient locked_by_7 = false ∧
  with_lock 100000 (kind := DocumentLock) lock_3_patient 2 1
            (emit (Chdir "/tmp")) locked_by_7
  = (Raise DocumentLockError,
     Store (docs locked_by_7)
           (log locked_by_7
            ++ replicate (if Concurrency._blocking lock_3_patient then (2 + 1)%nat else 1%nat)
                         (FindAndModify (DocumentLock_acquire_query lock_3_patient)
                                        (DocumentLock_acquire_update lock_3_patient)))).
Proof.
  split; [reflexivity|].
  apply (scope_is_not_entered_when_locked 100000 lock_3_patient 2 1
           (emit (Chdir "/tmp")) locked_by_7); [reflexivity| |discriminate].
  intros _. simpl. lia.
Defined.

Lemma failed_scope_witness :
  docs fresh !! _document_id lock_3_patient = Some ∅ ∧
  with_lock 100000 (kind := DocumentLock) lock_3_patient 0 1 (emit (Chdir "/tmp")) fresh
  = (Raise DocumentLockError,
     Store (<[_document_id lock_3_patient := <[LOCK_ID_FIELD := me lock_3_patient]> ∅]>
              (docs fresh))
           (log fresh ++ [FindAndModify (DocumentLock_acquire_query lock_3_patient)
                                        (DocumentLock_acquire_update lock_3_patient)])).
Proof.
  split; [reflexivity|].
  apply (failed_scope_can_leave_the_lock_taken 100000 lock_3_patient 0
           (emit (Chdir "/tmp")) fresh ∅); try reflexivity; simpl; lia.
Defined.

End ScopeProperties.

(** ** Several reentrant locks on one document *)

Module ReentrantContentionProperties.

Import Concurrency Observe Sample Cases MongoFacts ReentrantLockFacts ReentrantContention.

Section OneDocument.

Variable document_id : string.

#[local] Abbreviation lock_of := (Contention.lock_of document_id).

Lemma lock_record_same_docs id s s' :
  docs s' = docs s → lock_record id s' = lock_record id s.
Proof. unfold lock_record. by intros ->. Qed.

(** Neither query of the reentrant lock selects a document owned by
    someone else, or a missing one. *)
Lemma DocumentRLock_acquire_refused i s :
  selects (DocumentRLock_acquire_query (lock_of i)) s = false →
  ∃ s', DocumentRLock_acquire (lock_of i) s = (Ok false, s') ∧ docs s' = docs s.
Proof.
  intros Hsel. eexists. unfold DocumentRLock_acquire, bind.
  by rewrite find_and_modify_miss.
Qed.

Lemma DocumentRLock_release_refused i s :
  selects (DocumentRLock_partial_query (lock_of i)) s = false →
  ∃ s', DocumentRLock_release (lock_of i) s = (Raise DocumentLockError, s') ∧
        docs s' = docs s.
Proof.
  intros Hpart.
  assert (selects (DocumentRLock_full_query (lock_of i)) s = false) as Hfull.
  { unfold selects in *. simpl in *.
    destruct (docs s !! document_id) as [d|]; [|done].
    unfold matches in *. simpl in *. rewrite andb_true_r in Hpart. by rewrite Hpart. }
  eexists. unfold DocumentRLock_release, bind.
  rewrite find_and_modify_miss by done.
  rewrite find_and_modify_miss; [done|].
  unfold selects in *. by destruct s.
Qed.

Lemma selects_other_owner i j s c :
  lock_record document_id s = Some (Some (VScalar (SUuid j)), c) → i ≠ j →
  selects (DocumentRLock_acquire_query (lock_of i)) s = false ∧
  selects (DocumentRLock_partial_query (lock_of i)) s = false.
Proof.
  unfold lock_record, selects. simpl. intros Hrec Hne.
  destruct (docs s !! document_id) as [d|]; [|done].
  simpl in Hrec. injection Hrec as HL HC.
  unfold matches. simpl. rewrite HL. simpl.
  rewrite bool_decide_eq_false_2 by congruence. done.
Qed.

Lemma selects_missing i s :
  lock_record document_id s = None →
  selects (DocumentRLock_acquire_query (lock_of i)) s = false ∧
  selects (DocumentRLock_partial_query (lock_of i)) s = false.
Proof.
  unfold lock_record, selects. simpl.
  by destruct (docs s !! document_id).
Qed.

Lemma selects_unlocked i s c :
  lock_record document_id s = Some (None, c) →
  selects (DocumentRLock_partial_query (lock_of i)) s = false.
Proof.
  unfold lock_record, selects. simpl. intros Hrec.
  destruct (docs s !! document_id) as [d|]; [|done].
  simpl in Hrec. injection Hrec as HL HC.
  unfold matches. simpl. by rewrite HL.
Qed.

(** A refused call leaves the world as it is, up to the log. *)
Lemma refused_consistent s s' h :
  docs s' = docs s →
  consistent document_id (World s h) → consistent document_id (World s' h).
Proof.
  unfold consistent. simpl. intros Hdocs.
  by rewrite (lock_record_same_docs document_id s s' Hdocs).
Qed.

Lemma step_attempt_consistent w i :
  consistent document_id w → consistent document_id (step document_id w (Contention.Attempt i)).
Proof.
  destruct w as [s h]. intros Hinv. pose proof Hinv as Hinv'.
  unfold consistent in Hinv. simpl in Hinv. unfold step. simpl.
  destruct (lock_record document_id s) as [[[o|] c]|] eqn:Hrec.
  - destruct Hinv as (k & z & -> & -> & Hz & Hothers & Hcount).
    destruct (decide (i = k)) as [->|Hne].
    + destruct (DocumentRLock_acquire_ok (lock_of k) s _ _ z Hrec) as (s' & -> & Hrec');
        [by right|by right|].
      unfold consistent. simpl in *. rewrite Hrec'.
      exists k, (z + 1). split; [done|]. split; [done|]. split; [lia|]. split.
      * intros j Hj. rewrite multiplicity_disj_union, multiplicity_singleton_ne by done.
        by rewrite Hothers.
      * rewrite multiplicity_disj_union, multiplicity_singleton.
        repeat case_decide; try done; lia.
    + destruct (selects_other_owner i k s _ Hrec Hne) as [Hsel _].
      destruct (DocumentRLock_acquire_refused i s Hsel) as (s' & -> & Hdocs).
      by apply (refused_consistent s).
  - destruct Hinv as [-> Hc].
    assert (∃ z, 0 ≤ z ∧ (c = None ∧ z = 0 ∨ c = Some (depth z))) as (z & Hz & Hc').
    { destruct Hc as [->|(z & -> & Hz)]; [exists 0|exists z]; split; auto; lia. }
    destruct (DocumentRLock_acquire_ok (lock_of i) s None c z Hrec) as (s' & -> & Hrec');
      [by left|done|].
    unfold consistent. simpl in *. rewrite Hrec'.
    exists i, (z + 1). split; [done|]. split; [done|]. split; [lia|]. split.
    + intros j Hj. rewrite multiplicity_disj_union, multiplicity_singleton_ne by done.
      by rewrite multiplicity_empty.
    + rewrite multiplicity_disj_union, multiplicity_singleton, multiplicity_empty.
      repeat case_decide; try done; lia.
  - destruct (selects_missing i s Hrec) as [Hsel _].
    destruct (DocumentRLock_acquire_refused i s Hsel) as (s' & -> & Hdocs).
    by apply (refused_consistent s).
Qed.

Lemma step_release_consistent w i :
  consistent document_id w → consistent document_id (step document_id w (Contention.Release i)).
Proof.
  destruct w as [s h]. intros Hinv. pose proof Hinv as Hinv'.
  unfold consistent in Hinv. simpl in Hinv. unfold step. simpl.
  destruct (lock_record document_id s) as [[[o|] c]|] eqn:Hrec.
  - destruct Hinv as (k & z & -> & -> & Hz & Hothers & Hcount).
    destruct (decide (i = k)) as [->|Hne].
    + destruct (decide (z = 1)) as [->|Hz1].
      * destruct (DocumentRLock_release_full (lock_of k) s Hrec) as (s' & -> & Hrec' & _).
        unfold consistent. simpl in *. rewrite Hrec'. split.
        -- apply gmultiset_eq. intros j.
           rewrite multiplicity_difference, multiplicity_empty.
           destruct (decide (j = k)) as [->|Hj].
           ++ rewrite multiplicity_singleton. repeat case_decide; try done; lia.
           ++ rewrite Hothers by done. lia.
        -- right. exists 1. split; [done|lia].
      * destruct (DocumentRLock_release_partial (lock_of k) s z Hrec Hz1)
          as (s' & -> & Hrec').
        unfold consistent. simpl in *. rewrite Hrec'.
        exists k, (z - 1). split; [done|]. split; [done|]. split; [lia|]. split.
        -- intros j Hj. rewrite multiplicity_difference, Hothers by done. lia.
        -- rewrite multiplicity_difference, multiplicity_singleton.
           repeat case_decide; try done; lia.
    + destruct (selects_other_owner i k s _ Hrec Hne) as [_ Hsel].
      destruct (DocumentRLock_release_refused i s Hsel) as (s' & -> & Hdocs).
      by apply (refused_consistent s).
  - destruct (DocumentRLock_release_refused i s (selects_unlocked i s c Hrec))
      as (s' & -> & Hdocs).
    by apply (refused_consistent s).
  - destruct (selects_missing i s Hrec) as [_ Hsel].
    destruct (DocumentRLock_release_refused i s Hsel) as (s' & -> & Hdocs).
    by apply (refused_consistent s).
Qed.

Lemma run_consistent ops : ∀ w,
  consistent document_id w → consistent document_id (run document_id w ops).
Proof.
  induction ops as [|o ops IH]; intros w Hinv; [done|].
  simpl. apply IH. destruct o.
  - by apply step_attempt_consistent.
  - by apply step_release_consistent.
Qed.

(** Mutual exclusion between owners of the reentrant lock. Start from a
    document that no lock object of the run holds and whose counter is
    absent or not negative (or that is missing, or locked by an outsider
    at a counter of at least 1). Then after every sequence of
    acquisitions and releases by any lock objects, all holds belong to
    one lock object, that object is the owner written in the document,
    and it holds at most as often as the counter says. *)
Theorem reentrant_lock_has_one_owner (s : store) (ops : list Contention.op) :
  consistent document_id (World s ∅) →
  let w := run document_id (World s ∅) ops in
  (∀ i j, i ∈ holds w → j ∈ holds w → i = j) ∧
  (∀ i, i ∈ holds w →
        ∃ z, lock_record document_id (shared w)
             = Some (Some (VScalar (SUuid i)), Some (depth z)) ∧
             Z.of_nat (multiplicity i (holds w)) ≤ z).
Proof.
  intros Hstart w.
  pose proof (run_consistent ops _ Hstart) as Hinv. fold w in Hinv.
  unfold consistent in Hinv.
  assert (∀ i, i ∈ holds w →
            ∃ z, lock_record document_id (shared w)
                 = Some (Some (VScalar (SUuid i)), Some (depth z)) ∧
                 Z.of_nat (multiplicity i (holds w)) ≤ z) as Hown.
  { intros i Hi. rewrite elem_of_multiplicity in Hi.
    destruct (lock_record document_id (shared w)) as [[[o|] c]|].
    - destruct Hinv as (k & z & -> & -> & Hz & Hothers & Hcount).
      destruct (decide (i = k)) as [->|Hne]; [by exists z|].
      specialize (Hothers i Hne). lia.
    - destruct Hinv as [Hempty _]. rewrite Hempty, multiplicity_empty in Hi. lia.
    - rewrite Hinv, multiplicity_empty in Hi. lia. }
  split; [|exact Hown].
  intros i j Hi Hj.
  destruct (Hown i Hi) as (zi & Hri & _), (Hown j Hj) as (zj & Hrj & _). congruence.
Qed.

End OneDocument.

Lemma reentrant_lock_one_owner_witness :
  consistent "abc123" (World fresh ∅) ∧
  let w := run "abc123" (World fresh ∅)
               [Contention.Attempt 1; Contention.Attempt 2; Contention.Attempt 1;
                Contention.Release 2; Contention.Release 1] in
  (∀ i j, i ∈ holds w → j ∈ holds w → i = j) ∧
  (∀ i, i ∈ holds w →
        ∃ z, lock_record "abc123" (shared w)
             = Some (Some (VScalar (SUuid i)), Some (depth z)) ∧
             Z.of_nat (multiplicity i (holds w)) ≤ z).
Proof.
  assert (consistent "abc123" (World fresh ∅)) as Hstart.
  { unfold consistent. simpl. split; [done|by left]. }
  split; [exact Hstart|].
  exact (reentrant_lock_has_one_owner "abc123" fresh
           [Contention.Attempt 1; Contention.Attempt 2; Contention.Attempt 1;
            Contention.Release 2; Contention.Release 1] Hstart).
Defined.

End ReentrantContentionProperties.

(** ** Registering, opening and closing a job *)

Module JobFacts.

Import Concurrency Job JobView Observe Sample Cases MongoFacts LockFacts LifecycleFacts.

Section OnlineJob.

Variable JOB_PARAMETERS_KEY : string.
Variable PYMONGO_3 : bool.
Variable TIMEOUT_MAX : Z.

Lemma _register_online_spec self s :
  _register_online JOB_PARAMETERS_KEY self s
  = (Ok tt,
     Store (<[_id self := registered_doc JOB_PARAMETERS_KEY self s]> (docs s))
           (log s ++ [FindOneAndUpdate (_filter self) (_make_doc JOB_PARAMETERS_KEY self)])).
Proof.
  unfold _register_online, find_one_and_update, bind, emit, modify, registered_doc.
  simpl. destruct (docs s !! _id self) as [d|]; reflexivity.
Qed.





End OnlineJob.

End JobFacts.

Module JobProperties.

Import Concurrency Job JobView Observe Sample Cases MongoFacts LockFacts LifecycleFacts JobFacts.

Section OnlineJob.

Variable JOB_PARAMETERS_KEY : string.
Variable PYMONGO_3 : bool.
Variable TIMEOUT_MAX : Z.

(** Registering is idempotent. The first [_registered()] of a job object
    is one upsert: a missing job document is created with exactly the
    parameters, an existing one is left as it is, and no other document
    changes. Once the flag is set, [_registered()] makes no store call. *)
Theorem registering_is_idempotent (self : job) (s : store) :
  _registered_flag self = false →
  ∃ s1,
    _registered JOB_PARAMETERS_KEY self s = (Ok (set_registered_flag true self), s1) ∧
    docs s1 !! _id self
    = Some (default {[ JOB_PARAMETERS_KEY := _parameters self ]} (docs s !! _id self)) ∧
    (∀ id, id ≠ _id self → docs s1 !! id = docs s !! id) ∧
    log s1 = log s ++ [FindOneAndUpdate (_filter self)
                         [SetOnInsert JOB_PARAMETERS_KEY (_parameters self)]] ∧
    ∀ s', _registered JOB_PARAMETERS_KEY (set_registered_flag true self) s'
          = (Ok (set_registered_flag true self), s').
Proof.
  intros Hflag. eexists. split; [|split; [|split; [|split]]].
  - unfold _registered. rewrite Hflag.
    erewrite bind_ok; [reflexivity|]. apply _register_online_spec.
  - simpl. by rewrite lookup_insert_eq.
  - intros id Hid. simpl. by rewrite lookup_insert_ne.
  - reflexivity.
  - intros s'. reflexivity.
Qed.







(** A job that does not wait for its lock: when the job document is
    missing or carries a lock, [__exit__] fails in the lock's
    [__enter__] with [DocumentLockError], after the one attempt. No
    teardown runs and the error in flight is not recorded: no document
    changes, so the instance stays in [executing]. *)
Theorem exit_without_the_lock_tears_nothing_down
    (self : job) (err : option error) (uuid : N) (n late : nat) (exited : bool) (s : store) :
  _registered_flag self = true → _blocking self = false → _timeout self = -1 →
  -1 ≤ TIMEOUT_MAX →
  free_for (job_lock self uuid) s = false →
  __exit__ JOB_PARAMETERS_KEY PYMONGO_3 TIMEOUT_MAX self err uuid n late exited s
  = (Raise DocumentLockError, Store (docs s) (log s ++ [take self uuid])).
Proof.
  intros Hflag Hb Ht Hmax Hheld.
  unfold __exit__, _get_lock, _registered. rewrite Hflag.
  erewrite bind_ok; [|reflexivity]. cbn [fst snd].
  unfold with_job_lock, with_lock, Concurrency.__enter__.
  fold (job_lock self uuid).
  assert (Concurrency._blocking (job_lock self uuid) = false) as -> by (simpl; by rewrite Hb).
  assert (Concurrency._timeout (job_lock self uuid) = -1) as -> by (simpl; by rewrite Ht).
  unfold bind at 1. unfold bind at 1. rewrite acquire_nonblocking by done.
  simpl _acquire. rewrite DocumentLock_acquire_spec, Hheld. reflexivity.
Qed.



End OnlineJob.

Lemma registering_witness :
  _registered_flag new_job = false ∧
  ∃ s1,
    _registered "parameters" new_job Sample.empty = (Ok (set_registered_flag true new_job), s1) ∧
    docs s1 !! _id new_job
    = Some (default {[ "parameters" := _parameters new_job ]}
                    (docs Sample.empty !! _id new_job)) ∧
    (∀ id, id ≠ _id new_job → docs s1 !! id = docs Sample.empty !! id) ∧
    log s1 = log Sample.empty ++ [FindOneAndUpdate (_filter new_job)
                                    [SetOnInsert "parameters" (_parameters new_job)]] ∧
    ∀ s', _registered "parameters" (set_registered_flag true new_job) s'
          = (Ok (set_registered_flag true new_job), s').
Proof.
  split; [reflexivity|].
  apply (registering_is_idempotent "parameters" new_job Sample.empty). reflexivity.
Defined.





Lemma exit_without_the_lock_witness :
  free_for (job_lock (Job.Job "i-1" "abc123" (VSub ∅) "/ws/abc123" (Some "/home") (-1)
                              false (Some tt) true) 5) locked_by_7 = false ∧
  __exit__ "parameters" true 100
           (Job.Job "i-1" "abc123" (VSub ∅) "/ws/abc123" (Some "/home") (-1)
                    false (Some tt) true) (Some boom) 5 1 0 true locked_by_7
  = (Raise DocumentLockError,
     Store (docs locked_by_7)
           (log locked_by_7
            ++ [take (Job.Job "i-1" "abc123" (VSub ∅) "/ws/abc123" (Some "/home") (-1)
                              false (Some tt) true) 5])).
Proof.
  split; [reflexivity|].
  apply (exit_without_the_lock_tears_nothing_down "parameters" true 100
           (Job.Job "i-1" "abc123" (VSub ∅) "/ws/abc123" (Some "/home") (-1)
                    false (Some tt) true) (Some boom) 5 1 0 true locked_by_7);
    try reflexivity. lia.
Defined.



End JobProperties.

(** ** Removing a job and forcing its lock open *)

Module AdministrationProperties.

Import Concurrency Job JobView Observe Sample Cases Administration MongoFacts LifecycleFacts JobFacts.

(** The guard of [remove()]. Without [force], a job whose document lists
    an open instance is not removed: [RuntimeError] after two reads of the
    document (the test and the message), before any of the content is
    touched, whatever the removal of the content would do. With an empty
    list the removal runs as after the one read. *)
Theorem remove_refuses_a_busy_job
    (dependents : job → M unit) (self : job) (s : store) (d : document) (l : list elem) :
  docs s !! _id self = Some d → d !! "executing" = Some (VArr l) →
  remove dependents self false s
  = match l with
    | [] => _remove dependents self (Store (docs s) (log s ++ [FindOne (_filter self)]))
    | _ :: _ => (Raise RuntimeError,
                 Store (docs s) (log s ++ [FindOne (_filter self); FindOne (_filter self)]))
    end.
Proof.
  intros Hd Hl.
  assert (∀ lg, num_open_instances self (Store (docs s) lg)
                = (Ok (length l), Store (docs s) (lg ++ [FindOne (_filter self)]))) as Hn.
  { intros lg. unfold num_open_instances, _open_instances, find_one, bind, emit. simpl.
    rewrite Hd. simpl. by rewrite Hl. }
  unfold remove. cbn [negb]. destruct s as [m lg]. cbn [docs log] in *.
  destruct l as [|x l].
  - erewrite bind_ok; [reflexivity|].
    erewrite (bind_ok _ _ _ (length (@nil elem))); [reflexivity|]. apply Hn.
  - unfold bind at 1.
    erewrite (bind_ok _ _ _ (length (x :: l))); [|apply Hn].
    cbn [length Nat.eqb negb].
    erewrite bind_ok; [|apply Hn].
    unfold raise. by rewrite <- app_assoc.
Qed.

(** [force_release()] of a job object that is not registered yet
    registers the job first: afterwards the job document exists, even if
    it did not before, with an empty lock record and otherwise the fields
    of the registered document; no other document changes. *)
Theorem job_force_release_registers_and_frees
    (JOB_PARAMETERS_KEY : string) (self : job) (uuid : N) (s : store) :
  _registered_flag self = false →
  ∃ s1,
    OnlineJob_force_release JOB_PARAMETERS_KEY self uuid s
    = (Ok (set_registered_flag true self), s1) ∧
    lock_record (_id self) s1 = Some (None, None) ∧
    (∀ f, f ≠ LOCK_ID_FIELD → f ≠ LOCK_COUNTER_FIELD →
          field f (_id self) s1 = registered_doc JOB_PARAMETERS_KEY self s !! f) ∧
    (∀ id, id ≠ _id self → docs s1 !! id = docs s !! id) ∧
    log s1 = log s ++ [FindOneAndUpdate (_filter self) (_make_doc JOB_PARAMETERS_KEY self);
                       FindAndModify (_filter self)
                         [Unset (Top LOCK_ID_FIELD); Unset (Top LOCK_COUNTER_FIELD)]].
Proof.
  intros Hflag. eexists. split; [|split; [|split; [|split]]].
  - unfold OnlineJob_force_release, _get_lock, _registered. rewrite Hflag.
    erewrite bind_ok;
      [|erewrite bind_ok;
          [|erewrite bind_ok; [reflexivity|apply _register_online_spec]];
        reflexivity].
    cbn [fst snd].
    erewrite bind_ok; [reflexivity|].
    apply ForceReleaseProperties.force_release_spec.
  - unfold lock_record. simpl. rewrite lookup_alter_eq, lookup_insert_eq. simpl.
    rewrite lookup_delete_ne by done. by rewrite !lookup_delete_eq.
  - intros f Hf1 Hf2. unfold field. simpl. rewrite lookup_alter_eq, lookup_insert_eq. simpl.
    by rewrite !lookup_delete_ne.
  - intros id Hid. simpl. by rewrite lookup_alter_ne, lookup_insert_ne.
  - simpl. by rewrite <- app_assoc.
Qed.

Lemma remove_refuses_witness :
  docs open_with_others !! _id job_1 = Some doc_with_others ∧
  doc_with_others !! "executing" = Some (VArr others) ∧
  remove (λ _, raise KeyError) job_1 false open_with_others
  = match others with
    | [] => _remove (λ _, raise KeyError) job_1
              (Store (docs open_with_others) (log open_with_others ++ [FindOne (_filter job_1)]))
    | _ :: _ => (Raise RuntimeError,
                 Store (docs open_with_others)
                       (log open_with_others ++ [FindOne (_filter job_1); FindOne (_filter job_1)]))
    end.
Proof.
  split; [reflexivity|]. split; [reflexivity|].
  apply (remove_refuses_a_busy_job (λ _, raise KeyError) job_1 open_with_others
           doc_with_others others); reflexivity.
Defined.

Lemma job_force_release_witness :
  _registered_flag new_job = false ∧
  ∃ s1,
    OnlineJob_force_release "parameters" new_job 5 locked_by_7
    = (Ok (set_registered_flag true new_job), s1) ∧
    lock_record (_id new_job) s1 = Some (None, None) ∧
    (∀ f, f ≠ LOCK_ID_FIELD → f ≠ LOCK_COUNTER_FIELD →
          field f (_id new_job) s1 = registered_doc "parameters" new_job locked_by_7 !! f) ∧
    (∀ id, id ≠ _id new_job → docs s1 !! id = docs locked_by_7 !! id) ∧
    log s1 = log locked_by_7
             ++ [FindOneAndUpdate (_filter new_job) (_make_doc "parameters" new_job);
                 FindAndModify (_filter new_job)
                   [Unset (Top LOCK_ID_FIELD); Unset (Top LOCK_COUNTER_FIELD)]].
Proof.
  split; [reflexivity|].
  apply (job_force_release_registers_and_frees "parameters" new_job 5 locked_by_7).
  reflexivity.
Defined.

End AdministrationProperties.

(** ** The selection of jobs in [script.remove] *)

Module ScriptProperties.

Import Script.

Lemma only_all (job : list string) :
  (length job = 1%nat ∧ job !! 0%nat = Some "all") ↔ job = ["all"].
Proof.
  split.
  - intros [Hlen Hfirst]. destruct job as [|x [|y job]]; simplify_eq/=. done.
  - intros ->. done.
Qed.

Lemma select_one (legit_id : string) (sels : list string) : ∀ (m : gset string) (x : string),
  x ∈ foldl (λ m selected, if String.prefix selected legit_id then {[legit_id]} ∪ m else m)
            m sels
  ↔ x ∈ m ∨ (x = legit_id ∧ ∃ sel, sel ∈ sels ∧ String.prefix sel legit_id = true).
Proof.
  induction sels as [|sel sels IH]; intros m x; simpl.
  - split; [by left|]. intros [?|[_ (sel & Hsel & _)]]; [done|]. by apply elem_of_nil in Hsel.
  - rewrite IH. destruct (String.prefix sel legit_id) eqn:Hp.
    + rewrite elem_of_union, elem_of_singleton. split.
      * intros [[->|?]|[-> (sel' & Hin & Hp')]].
        -- right. split; [done|]. exists sel. split; [left|done].
        -- by left.
        -- right. split; [done|]. exists sel'. split; [by right|done].
      * intros [?|[-> (sel' & Hin & Hp')]]; [left; by right|]. left. by left.
    + split.
      * intros [?|[-> (sel' & Hin & Hp')]]; [by left|].
        right. split; [done|]. exists sel'. split; [by right|done].
      * intros [?|[-> (sel' & Hin & Hp')]]; [by left|].
        apply elem_of_cons in Hin as [->|Hin]; [congruence|].
        right. split; [done|]. by exists sel'.
Qed.

Lemma select_all (sels legit_ids : list string) : ∀ (m : gset string) (x : string),
  x ∈ foldl (λ match_ legit_id,
               foldl (λ m selected,
                        if String.prefix selected legit_id then {[legit_id]} ∪ m else m)
                     match_ sels)
            m legit_ids
  ↔ x ∈ m ∨ (x ∈ legit_ids ∧ ∃ sel, sel ∈ sels ∧ String.prefix sel x = true).
Proof.
  induction legit_ids as [|legit_id legit_ids IH]; intros m x; simpl.
  - split; [by left|]. intros [?|[Hin _]]; [done|]. by apply elem_of_nil in Hin.
  - rewrite IH, select_one. split.
    + intros [[?|[-> Hsel]]|[Hin Hsel]].
      * by left.
      * right. split; [left|done].
      * right. split; [by right|done].
    + intros [?|[Hin Hsel]]; [left; by left|].
      apply elem_of_cons in Hin as [->|Hin].
      * left. right. by split.
      * right. by split.
Qed.

(** The jobs a [remove] command selects: with the one argument [all],
    every job id of the project; otherwise the job ids of the project
    that start with one of the arguments. So an argument selects by
    prefix, the empty argument selects every job, and [all] next to
    another argument is a prefix like any other. Ids that are not in the
    project are never selected. *)
Theorem select_is_by_prefix (job legit_ids : list string) (id : string) :
  id ∈ select job legit_ids
  ↔ id ∈ legit_ids ∧ (job = ["all"] ∨ ∃ sel, sel ∈ job ∧ String.prefix sel id = true).
Proof.
  unfold select. case_bool_decide as Hall.
  - rewrite elem_of_list_to_set. apply only_all in Hall. split; [|tauto].
    intros ?. split; [done|by left].
  - rewrite select_all. split.
    + intros [Hin|[Hin (sel & Hsel & Hp)]]; [by apply elem_of_empty in Hin|].
      split; [done|]. right. exists sel. split; [|done].
      apply elem_of_elements in Hsel. by apply elem_of_list_to_set in Hsel.
    + intros [Hin [Hjob|(sel & Hsel & Hp)]]; [by apply only_all in Hjob|].
      right. split; [done|]. exists sel. split; [|done].
      apply elem_of_elements. by apply elem_of_list_to_set.
Qed.

End ScriptProperties.

(** ** What the caller of a blocking [acquire] is told *)

Module RetryThreadProperties.

Import Concurrency Observe Sample Cases Scheduler LockFacts.

Section Blocking.

Variable self : lock.
Variable timeout : Z.

#[local] Abbreviation step := (Scheduler.step (kind := DocumentLock) self timeout).
#[local] Abbreviation run := (Scheduler.run (kind := DocumentLock) self timeout).

(** The retry thread of a [DocumentLock] ends without the lock only when
    told to stop, and the caller sets [stop_event] only on its way to
    returning [False]. *)
Lemma step_accounts st a :
  (stop_event st = true → caller st = JoiningForGood ∨ caller st = Returned false) ∧
  (retry st = Ended false → stop_event st = true) ∧
  (caller st = Returned true → retry st = Ended true) →
  (stop_event (step st a) = true →
   caller (step st a) = JoiningForGood ∨ caller (step st a) = Returned false) ∧
  (retry (step st a) = Ended false → stop_event (step st a) = true) ∧
  (caller (step st a) = Returned true → retry (step st a) = Ended true).
Proof.
  intros (Hstop & Hended & Htrue). destruct a as [|elapsed|d]; simpl.
  - unfold retry_step. destruct (retry st) as [| | |b] eqn:Hr.
    + simpl. destruct (stop_event st) eqn:Hs; simpl; repeat split; try done;
        intros Hc; by specialize (Htrue Hc).
    + simpl _acquire. rewrite DocumentLock_acquire_spec.
      destruct (free_for self (shared st)); simpl; repeat split; try done;
        intros Hc; by specialize (Htrue Hc).
    + simpl. repeat split; try done. intros Hc. by specialize (Htrue Hc).
    + rewrite Hr. done.
  - unfold caller_step. destruct (caller st) as [| | | |b] eqn:Hc.
    + destruct (negb (alive (retry st)) || elapsed && negb (timeout =? -1)); simpl.
      * repeat split; try done. intros Hs. by destruct (Hstop Hs).
      * rewrite Hc. done.
    + simpl. repeat split; try done.
      * intros Hs. by destruct (Hstop Hs).
      * destruct (retry st) as [| | |[|]] eqn:Hr; simpl; try done.
        intros _. specialize (Hended eq_refl). by destruct (Hstop Hended).
    + simpl. repeat split; try done. by left.
    + destruct (alive (retry st)); simpl.
      * rewrite Hc. done.
      * repeat split; try done. by right.
    + rewrite Hc. done.
  - done.
Qed.

Lemma run_accounts schedule : ∀ st,
  (stop_event st = true → caller st = JoiningForGood ∨ caller st = Returned false) ∧
  (retry st = Ended false → stop_event st = true) ∧
  (caller st = Returned true → retry st = Ended true) →
  caller (run st schedule) = Returned true → retry (run st schedule) = Ended true.
Proof.
  induction schedule as [|a schedule IH]; intros st Hst; simpl.
  - by destruct Hst as (_ & _ & ?).
  - apply IH. by apply step_accounts.
Qed.

(** In every interleaving of a blocking [DocumentLock.acquire], whatever
    other processes write in between: the caller returns [True] only
    after an attempt of its retry thread has succeeded, and then
    [stop_event] was never set. *)
Theorem returns_true_only_after_a_successful_attempt (s : store) (schedule : list action) :
  caller (run (started s) schedule) = Returned true →
  retry (run (started s) schedule) = Ended true.
Proof. apply run_accounts. simpl. repeat split; done. Qed.

(** With a timeout, [False] does not mean that the lock was not taken:
    when the timeout fires while the retry thread is between its loop test
    and its attempt, the thread still takes the free document after
    [stop_event] is set, and the caller returns [False] from the final
    join with the document carrying its lock id. *)
Theorem timed_out_acquire_can_keep_the_lock (s : store) (d : document) :
  timeout ≠ -1 →
  docs s !! _document_id self = Some d → d !! LOCK_ID_FIELD = None →
  caller (run (started s) overtaken) = Returned false ∧
  retry (run (started s) overtaken) = Ended true ∧
  held_by self (shared (run (started s) overtaken)) = true.
Proof.
  intros Ht Hd Hfree.
  assert ((timeout =? -1) = false) as Hne by lia.
  assert (free_for self s = true) as Hfor.
  { unfold free_for, selects. simpl. rewrite Hd. unfold matches. simpl. by rewrite Hfree. }
  unfold Scheduler.run, overtaken, started.
  cbn [foldl Scheduler.step caller_step retry_step caller retry stop_event shared
       alive negb orb andb].
  rewrite Hne.
  cbn [foldl Scheduler.step caller_step retry_step caller retry stop_event shared
       alive negb orb andb].
  simpl _acquire. rewrite DocumentLock_acquire_spec, Hfor.
  cbn [foldl Scheduler.step caller_step retry_step caller retry stop_event shared
       alive negb orb andb].
  repeat split.
  unfold held_by, selects. simpl. rewrite lookup_alter_eq, Hd. simpl.
  unfold matches. simpl. rewrite lookup_insert_eq. by rewrite bool_decide_eq_true_2.
Qed.

End Blocking.

Lemma returns_true_witness :
  caller (Scheduler.run (kind := DocumentLock) lock_3 2 (started fresh) prompt) = Returned true ∧
  retry (Scheduler.run (kind := DocumentLock) lock_3 2 (started fresh) prompt) = Ended true.
Proof.
  split; [reflexivity|].
  apply (returns_true_only_after_a_successful_attempt lock_3 2 fresh prompt). reflexivity.
Defined.

Lemma timed_out_acquire_keeps_witness :
  caller (Scheduler.run (kind := DocumentLock) lock_3_patient 2 (started fresh) overtaken)
  = Returned false ∧
  retry (Scheduler.run (kind := DocumentLock) lock_3_patient 2 (started fresh) overtaken)
  = Ended true ∧
  held_by lock_3_patient
          (shared (Scheduler.run (kind := DocumentLock) lock_3_patient 2 (started fresh)
                                 overtaken)) = true.
Proof.
  apply (timed_out_acquire_can_keep_the_lock lock_3_patient 2 fresh ∅); [lia|reflexivity..].
Defined.

End RetryThreadProperties.
